(** * The contact-form backend (server.js), embedded and verified

    The program is a single Node.js file: a request router, a submission
    validator, a contact repository over a PostgreSQL store, a schema
    initialiser and the server start-up.  The development below follows
    the file top to bottom.

    - JavaScript strings are sequences of UTF-16 code units ([list N]).
    - JavaScript values are the inductive [JSValue].
    - [async] functions that may throw are programs of the monad [Prog]:
      a state (the store and the statements sent to it) together with a
      normal or a throw completion.
    - What the language or the platform provides and the file only calls
      ([JSON.parse], [String.prototype.toLowerCase], the SQL client) is an
      interface ([Builtins], [Database]); every theorem about the handler
      holds for all implementations.  A reference implementation of each is
      given further down and is used to run the program on concrete
      requests. *)

From Stdlib Require Import List NArith ZArith Bool String Ascii Lia.
Import ListNotations.

Set Implicit Arguments.
Set Warnings "-register-all".

(* ================================================================== *)
(** * Strings *)

Abbreviation codeunit := N (only parsing).
Abbreviation jsstring := (list N) (only parsing).

(** An ASCII literal of the source as a code-unit string. *)
Definition js (s : string) : jsstring :=
  map N_of_ascii (list_ascii_of_string s).

Fixpoint str_eqb (a b : jsstring) : bool :=
  match a, b with
  | [], [] => true
  | x :: a', y :: b' => N.eqb x y && str_eqb a' b'
  | _, _ => false
  end.

(** ECMAScript WhiteSpace and LineTerminator code points: what
    [String.prototype.trim] strips and what [\s] matches. *)
Definition is_whitespace (c : codeunit) : bool :=
  ((0x09 <=? c) && (c <=? 0x0D)
   || (c =? 0x20) || (c =? 0xA0) || (c =? 0x1680)
   || ((0x2000 <=? c) && (c <=? 0x200A))
   || (c =? 0x2028) || (c =? 0x2029) || (c =? 0x202F)
   || (c =? 0x205F) || (c =? 0x3000) || (c =? 0xFEFF))%N.

Fixpoint trimStart (s : jsstring) : jsstring :=
  match s with
  | [] => []
  | c :: s' => if is_whitespace c then trimStart s' else s
  end.

Definition trimEnd (s : jsstring) : jsstring := rev (trimStart (rev s)).

(** [String.prototype.trim]. *)
Definition trim (s : jsstring) : jsstring := trimEnd (trimStart s).

(** [String.prototype.startsWith]. *)
Fixpoint startsWith (s prefix : jsstring) : bool :=
  match prefix, s with
  | [], _ => true
  | p :: prefix', c :: s' => N.eqb c p && startsWith s' prefix'
  | _ :: _, [] => false
  end.

(** [String.prototype.includes]. *)
Fixpoint includes (s sub : jsstring) : bool :=
  startsWith s sub ||
  match s with
  | [] => false
  | _ :: s' => includes s' sub
  end.

(* ================================================================== *)
(** * Values *)

(** A number [JSNumber m e] stands for the double nearest to the decimal
    [m * 10^e].  The program never computes with a number it received; all
    it can observe of one is whether it is zero, in [phone || null]. *)
Inductive JSValue : Type :=
| JSUndefined
| JSNull
| JSBool (b : bool)
| JSNumber (m e : Z)
| JSString (s : jsstring)
| JSArray (items : list JSValue)
| JSObject (props : list (jsstring * JSValue)).

(** The double nearest to [m * 10^e] is zero when the decimal is zero or
    lies within half the least positive double, [2^-1074], of zero: a tie
    goes to the even neighbour, which is zero. *)
Definition rounds_to_zero (m e : Z) : bool :=
  if Z.eqb m 0 then true
  else if Z.ltb e 0 then Z.leb (Z.abs m * 2 ^ 1075) (10 ^ (- e))
  else false.

(** ToBoolean. *)
Definition truthy (v : JSValue) : bool :=
  match v with
  | JSUndefined | JSNull => false
  | JSBool b => b
  | JSNumber m e => negb (rounds_to_zero m e)
  | JSString s => match s with [] => false | _ => true end
  | JSArray _ | JSObject _ => true
  end.

(** [a || b] on values whose right operand has no effect. *)
Definition js_or (a b : JSValue) : JSValue := if truthy a then a else b.

(** Own property lookup in the property list of an object. *)
Fixpoint lookup (k : jsstring) (props : list (jsstring * JSValue)) : JSValue :=
  match props with
  | [] => JSUndefined
  | (k', v) :: rest => if str_eqb k k' then v else lookup k rest
  end.

(** [v === 'literal']. *)
Definition strict_eq_string (v : JSValue) (lit : jsstring) : bool :=
  match v with
  | JSString s => str_eqb s lit
  | _ => false
  end.

(* ================================================================== *)
(** * Completions *)

(** What a [catch] clause of the file can receive: the two errors the
    language raises here, and the error object of a rejected query with the
    optional [code] and [constraint] fields the driver sets on it. *)
Inductive Exn : Type :=
| TypeError
| SyntaxError
| DriverError (code constraint : option jsstring).

Inductive Completion (A : Type) : Type :=
| Normal (a : A)
| Throw (e : Exn).
Arguments Normal {A} a.
Arguments Throw {A} e.

Definition cbind {A B} (c : Completion A) (k : A -> Completion B) : Completion B :=
  match c with
  | Normal a => k a
  | Throw e => Throw e
  end.

(** [v.k] for the property names the file reads ([name], [email], [phone],
    [message], [id], [column_name], [current_time]): none of them is
    defined on a built-in prototype, so the lookup on anything but an
    object with that own property gives [undefined], and on [undefined] or
    [null] it throws. *)
Definition get (v : JSValue) (k : jsstring) : Completion JSValue :=
  match v with
  | JSUndefined | JSNull => Throw TypeError
  | JSObject props => Normal (lookup k props)
  | _ => Normal JSUndefined
  end.

(** [array[0]]. *)
Definition first (rows : list JSValue) : JSValue :=
  match rows with
  | [] => JSUndefined
  | r :: _ => r
  end.

(** [v.trim()]: only a string has a callable [trim]; a value parsed from
    JSON or returned by the driver holds no function, so on every other
    value the call throws. *)
Definition call_trim (v : JSValue) : Completion JSValue :=
  match v with
  | JSString s => Normal (JSString (trim s))
  | _ => Throw TypeError
  end.

(** [v?.trim()]. *)
Definition opt_trim (v : JSValue) : Completion JSValue :=
  match v with
  | JSUndefined | JSNull => Normal JSUndefined
  | _ => call_trim v
  end.

(* ================================================================== *)
(** * Regular expressions *)

(** The members of a character class: [\s] or a literal character. *)
Inductive ClassAtom : Type :=
| CSpace
| CChar (c : codeunit).

Definition atom_matches (a : ClassAtom) (c : codeunit) : bool :=
  match a with
  | CSpace => is_whitespace c
  | CChar c' => N.eqb c c'
  end.

(** [in_class negated atoms c]: [c] is matched by the class [[atoms]], or
    by [[^atoms]] when [negated]. *)
Definition in_class (negated : bool) (atoms : list ClassAtom) (c : codeunit) : bool :=
  xorb negated (existsb (fun a => atom_matches a c) atoms).

Inductive regex : Type :=
| RVoid
| REps
| RClass (negated : bool) (atoms : list ClassAtom)
| RSeq (r1 r2 : regex)
| RAlt (r1 r2 : regex)
| RStar (r : regex).

Definition RChar (c : codeunit) : regex := RClass false [CChar c].
Definition RPlus (r : regex) : regex := RSeq r (RStar r).

Fixpoint nullable (r : regex) : bool :=
  match r with
  | RVoid => false
  | REps => true
  | RClass _ _ => false
  | RSeq r1 r2 => nullable r1 && nullable r2
  | RAlt r1 r2 => nullable r1 || nullable r2
  | RStar _ => true
  end.

(** Brzozowski derivative: the strings [s] with [c :: s] in the language. *)
Fixpoint deriv (c : codeunit) (r : regex) : regex :=
  match r with
  | RVoid => RVoid
  | REps => RVoid
  | RClass n atoms => if in_class n atoms c then REps else RVoid
  | RSeq r1 r2 =>
      if nullable r1
      then RAlt (RSeq (deriv c r1) r2) (deriv c r2)
      else RSeq (deriv c r1) r2
  | RAlt r1 r2 => RAlt (deriv c r1) (deriv c r2)
  | RStar r1 => RSeq (deriv c r1) (RStar r1)
  end.

(** [matches r s]: the whole of [s] is in the language of [r]. *)
Fixpoint matches (r : regex) (s : jsstring) : bool :=
  match s with
  | [] => nullable r
  | c :: s' => matches (deriv c r) s'
  end.

(** The language of a regular expression. *)
Inductive Lang : regex -> jsstring -> Prop :=
| LEps : Lang REps []
| LClass n atoms c : in_class n atoms c = true -> Lang (RClass n atoms) [c]
| LSeq r1 r2 s1 s2 : Lang r1 s1 -> Lang r2 s2 -> Lang (RSeq r1 r2) (s1 ++ s2)
| LAltL r1 r2 s : Lang r1 s -> Lang (RAlt r1 r2) s
| LAltR r1 r2 s : Lang r2 s -> Lang (RAlt r1 r2) s
| LStarNil r : Lang (RStar r) []
| LStarApp r s1 s2 : Lang r s1 -> Lang (RStar r) s2 -> Lang (RStar r) (s1 ++ s2).

(** [[^\s@]] *)
Definition not_space_nor_at : regex := RClass true [CSpace; CChar 0x40%N].

(** [/^[^\s@]+@[^\s@]+\.[^\s@]+$/].  The pattern is anchored at both ends
    and has no flag, so it is kept as the expression between the anchors
    and [test] asks for a match of the whole string. *)
Definition emailRegex : regex :=
  RSeq (RPlus not_space_nor_at)
    (RSeq (RChar 0x40%N)
       (RSeq (RPlus not_space_nor_at)
          (RSeq (RChar 0x2E%N)
             (RPlus not_space_nor_at)))).

(** [re.test(v)] for an anchored [re].  The argument is converted with
    ToString first; the conversion is written out for strings only, the
    one kind of value the handler passes (see [test_reached_on_strings]).
    *)
Definition RegExp_test (re : regex) (v : JSValue) : Completion bool :=
  match v with
  | JSString s => Normal (matches re s)
  | _ => Throw TypeError
  end.

(* ================================================================== *)
(** * The platform *)

(** The seven SQL statements of the file, in the order they appear in it;
    the insert carries its four parameters. *)
Inductive Query : Type :=
| SelectNow
| SelectColumns
| AlterAddCreatedAt
| CreateTable
| CreateIndexEmail
| CreateIndexCreatedAt
| InsertContact (name email phone message : JSValue).

(** Built-ins of the language that the file calls and that are kept
    abstract: [JSON.parse] ([None] is a thrown SyntaxError) and the
    Unicode-aware [String.prototype.toLowerCase]. *)
Class Builtins : Type := {
  JSON_parse : jsstring -> option JSValue;
  toLowerCase : jsstring -> jsstring
}.

(** The SQL client: a statement either resolves to the array of its rows or
    rejects with an error, and changes the store. *)
Class Database (DB : Type) : Type := {
  run_query : Query -> DB -> Completion (list JSValue) * DB
}.

(* ================================================================== *)
(** * The program *)

Section Program.

Context {B : Builtins} {DB : Type} {D : Database DB}.

(** The state an [async] function of the file runs in: the store behind
    the connection and the statements sent so far. *)
Record World : Type := { store : DB; sent : list Query }.

Definition Prog (A : Type) : Type := World -> Completion A * World.

Definition ret {A} (a : A) : Prog A := fun w => (Normal a, w).

Definition bind {A C} (p : Prog A) (k : A -> Prog C) : Prog C :=
  fun w =>
    match p w with
    | (Normal a, w') => k a w'
    | (Throw e, w') => (Throw e, w')
    end.

Definition lift {A} (c : Completion A) : Prog A := fun w => (c, w).

(** [try { body } catch (error) { handler }] *)
Definition try_catch {A} (body : Prog A) (handler : Exn -> Prog A) : Prog A :=
  fun w =>
    match body w with
    | (Normal a, w') => (Normal a, w')
    | (Throw e, w') => handler e w'
    end.

Notation "x <- p ;; k" := (bind p (fun x => k))
  (at level 100, p at next level, right associativity).
Notation "p ;;; k" := (bind p (fun _ => k))
  (at level 100, right associativity).

(** [await sql`...`] *)
Definition sql (q : Query) : Prog (list JSValue) :=
  fun w =>
    let (r, db') := run_query q (store w) in
    (r, {| store := db'; sent := sent w ++ [q] |}).

(** ** testConnection *)

Definition testConnection : Prog unit :=
  try_catch
    (result <- sql SelectNow ;;
     lift (get (first result) (js "current_time")) ;;;
     ret tt)
    (fun error => ret tt).

(** ** checkTableStructure *)

Definition checkTableStructure : Prog (list JSValue) :=
  try_catch
    (tableInfo <- sql SelectColumns ;;
     ret tableInfo)
    (fun error => ret []).

(** ** createTable *)

(** [Array.prototype.some] with a callback that may throw. *)
Fixpoint some (f : JSValue -> Completion bool) (l : list JSValue) : Completion bool :=
  match l with
  | [] => Normal false
  | x :: l' => cbind (f x) (fun b => if b then Normal true else some f l')
  end.

(** [Array.prototype.map] with a callback that may throw. *)
Fixpoint map_c (f : JSValue -> Completion JSValue) (l : list JSValue) : Completion (list JSValue) :=
  match l with
  | [] => Normal []
  | x :: l' => cbind (f x) (fun y => cbind (map_c f l') (fun ys => Normal (y :: ys)))
  end.

Definition is_created_at (col : JSValue) : Completion bool :=
  cbind (get col (js "column_name"))
    (fun n => Normal (strict_eq_string n (js "created_at"))).

Definition createTable : Prog unit :=
  try_catch
    (existingColumns <- checkTableStructure ;;
     hasCreatedAt <- lift (some is_created_at existingColumns) ;;
     (if negb hasCreatedAt && (0 <? List.length existingColumns)%nat
      then sql AlterAddCreatedAt
      else sql CreateTable) ;;;
     try_catch (sql CreateIndexEmail ;;; ret tt) (fun indexError => ret tt) ;;;
     try_catch (sql CreateIndexCreatedAt ;;; ret tt) (fun indexError => ret tt) ;;;
     finalStructure <- checkTableStructure ;;
     lift (map_c (fun col => get col (js "column_name")) finalStructure) ;;;
     ret tt)
    (fun error => ret tt).

(** ** saveContact *)

(** [error.code] and [error.constraint]. *)
Definition error_code (error : Exn) : JSValue :=
  match error with
  | DriverError (Some c) _ => JSString c
  | _ => JSUndefined
  end.

Definition error_constraint (error : Exn) : JSValue :=
  match error with
  | DriverError _ (Some c) => JSString c
  | _ => JSUndefined
  end.

(** [v?.includes(sub)] as a condition, for [v] a string or [undefined]. *)
Definition opt_includes (v : JSValue) (sub : jsstring) : bool :=
  match v with
  | JSString s => includes s sub
  | _ => false
  end.

Definition result_object (status message : string) : JSValue :=
  JSObject [(js "status", JSString (js status)); (js "message", JSString (js message))].

Definition saved (id : JSValue) : JSValue :=
  JSObject [(js "status", JSString (js "success"));
            (js "message", JSString (js "Thank you! Your message has been sent successfully."));
            (js "id", id)].

Definition email_used : JSValue :=
  result_object "error" "This email address has already been used. Please use a different email.".

Definition phone_used : JSValue :=
  result_object "error" "This phone number has already been used. Please use a different number.".

Definition not_saved : JSValue :=
  result_object "error" "Something went wrong while saving your contact. Please try again later.".

Definition saveContact (name email phone message : JSValue) : Prog JSValue :=
  try_catch
    (result <- sql (InsertContact name email (js_or phone JSNull) message) ;;
     id <- lift (get (first result) (js "id")) ;;
     ret (saved id))
    (fun error =>
       if strict_eq_string (error_code error) (js "23505")
       then
         if opt_includes (error_constraint error) (js "email") then ret email_used
         else if opt_includes (error_constraint error) (js "phone") then ret phone_used
         else ret not_saved
       else ret not_saved).

(** ** requestHandler *)

Record Request : Type := {
  method : jsstring;
  url : jsstring;
  chunks : list jsstring   (* what each 'data' event appends to the body *)
}.

(** [body += chunk] from the empty string. *)
Definition request_body (req : Request) : jsstring :=
  fold_left (fun body chunk => body ++ chunk) (chunks req) [].

Inductive StaticKind : Type := ContactPage | Stylesheet | Script | Image.

(** What the handler does with [res].  Every reply carries the three CORS
    headers set at the top of the handler.  A [Static] reply is the call of
    [serveStaticFile] on the path under the project root; the file system
    is outside this development.  [Json status payload] is
    [writeHead(status, {"Content-Type": "application/json"})] followed by
    [end(JSON.stringify(payload))]. *)
Inductive Reply : Type :=
| Preflight
| Static (kind : StaticKind) (path : jsstring)
| Json (status : Z) (payload : JSValue).

Definition no_data : JSValue :=
  result_object "error" "No data received. Please try again.".

Definition required_fields : JSValue :=
  result_object "error" "Name, email, and message are required fields.".

Definition invalid_email : JSValue :=
  result_object "error" "Please enter a valid email address.".

Definition server_error : JSValue :=
  result_object "error" "Server error. Please try again later.".

Definition page_not_found : JSValue :=
  result_object "error" "Page not found".

(** [!v?.trim()] *)
Definition no_text (v : JSValue) : Completion bool :=
  cbind (opt_trim v) (fun t => Normal (negb (truthy t))).

(** [a || b] on conditions: [b] is evaluated only when [a] is false. *)
Definition or_else (a b : Completion bool) : Completion bool :=
  cbind a (fun x => if x then Normal true else b).

(** [v.toLowerCase()] *)
Definition call_toLowerCase (v : JSValue) : Completion JSValue :=
  match v with
  | JSString s => Normal (JSString (toLowerCase s))
  | _ => Throw TypeError
  end.

(** [JSON.parse(body)] *)
Definition parse (body : jsstring) : Completion JSValue :=
  match JSON_parse body with
  | Some v => Normal v
  | None => Throw SyntaxError
  end.

(** The ['end'] listener of a POST to [/submit-contact], on the buffered
    body. *)
Definition on_end (body : jsstring) : Prog Reply :=
  try_catch
    (if negb (truthy (JSString (trim body)))
     then ret (Json 400 no_data)
     else
       data <- lift (parse body) ;;
       name <- lift (get data (js "name")) ;;
       email <- lift (get data (js "email")) ;;
       phone <- lift (get data (js "phone")) ;;
       message <- lift (get data (js "message")) ;;
       missing <- lift (or_else (no_text name) (or_else (no_text email) (no_text message))) ;;
       if missing
       then ret (Json 400 required_fields)
       else
         valid <- lift (RegExp_test emailRegex email) ;;
         if negb valid
         then ret (Json 400 invalid_email)
         else
           arg_name <- lift (call_trim name) ;;
           arg_email <- lift (cbind (call_trim email) call_toLowerCase) ;;
           arg_phone <- lift (cbind (opt_trim phone) (fun t => Normal (js_or t JSNull))) ;;
           arg_message <- lift (call_trim message) ;;
           response <- saveContact arg_name arg_email arg_phone arg_message ;;
           ret (Json 200 response))
    (fun error => ret (Json 500 server_error)).

Definition requestHandler (req : Request) : Prog Reply :=
  let GET := str_eqb (method req) (js "GET") in
  if str_eqb (method req) (js "OPTIONS") then ret Preflight
  else if GET && str_eqb (url req) (js "/") then ret (Static ContactPage (js "contact.html"))
  else if GET && startsWith (url req) (js "/css/") then ret (Static Stylesheet (url req))
  else if GET && startsWith (url req) (js "/js/") then ret (Static Script (url req))
  else if GET && startsWith (url req) (js "/images/") then ret (Static Image (url req))
  else if str_eqb (method req) (js "POST") && str_eqb (url req) (js "/submit-contact")
       then on_end (request_body req)
  else ret (Json 404 page_not_found).

(** ** startServer *)

(** [process.env.PORT || 3000]: an environment value is a string, the
    default is a number. *)
Inductive Port : Type :=
| PortString (s : jsstring)
| PortNumber (n : Z).

Definition PORT (env_PORT : option jsstring) : Port :=
  match env_PORT with
  | Some (c :: s) => PortString (c :: s)
  | Some [] | None => PortNumber 3000
  end.

(** [PORT + 1]: addition on a number, concatenation on a string. *)
Definition plus_one (p : Port) : Port :=
  match p with
  | PortString s => PortString (s ++ js "1")
  | PortNumber n => PortNumber (n + 1)
  end.

(** How a call of [server.listen] ends: the callback runs, an ['error']
    event with a code is emitted, or the call itself throws.  Node takes a
    number, and a string that reads as a number that is not negative, for a
    port, and throws [ERR_SOCKET_BAD_PORT] unless it is a whole number from
    0 to 65535; any other string names a pipe. *)
Inductive BindResult : Type :=
| Bound
| BindError (code : jsstring)
| Thrown.

Inductive ServerStatus : Type :=
| Listening (port : Port)
| Binding (port : Port)
| Exited (status : Z).

Definition is_decimal_digit (c : codeunit) : bool :=
  ((0x30 <=? c) && (c <=? 0x39))%N.

(** The number a string of decimal digits reads as. *)
Definition decimal (s : jsstring) : option Z :=
  match s with
  | [] => None
  | _ => if forallb is_decimal_digit s
         then Some (fold_left (fun acc c => (acc * 10 + Z.of_N (c - 0x30))%Z) s 0%Z)
         else None
  end.

(** The ports on which [server.listen] is known to throw whatever the
    system does: a number, or a string of decimal digits, outside 0 to
    65535.  On any other string [Thrown] tells whether the call throws. *)
Definition out_of_range (p : Port) : bool :=
  match p with
  | PortNumber n => (n <? 0)%Z || (65535 <? n)%Z
  | PortString s => match decimal s with
                    | Some v => (65535 <? v)%Z
                    | None => false
                    end
  end.

(** The calls of [server.listen] and where they lead, given how each call
    ends.  The ['error'] listener stays registered, so it also answers the
    failure of the call it made itself.  A call that throws ends the
    process with status 1: the first call is inside the [try] of
    [startServer], whose [catch] clause calls [process.exit(1)]; a later
    call is made by the ['error'] listener, where nothing catches the
    exception. *)
Fixpoint listen (PORT arg : Port) (binds : list BindResult) : list Port * ServerStatus :=
  if out_of_range arg then ([arg], Exited 1)
  else
    match binds with
    | [] => ([arg], Binding arg)
    | Bound :: _ => ([arg], Listening arg)
    | Thrown :: _ => ([arg], Exited 1)
    | BindError code :: rest =>
        if str_eqb code (js "EADDRINUSE")
        then let (calls, status) := listen PORT (plus_one PORT) rest in
             (arg :: calls, status)
        else ([arg], Exited 1)
    end.

Definition startServer (env_PORT : option jsstring) (binds : list BindResult)
  : Prog (list Port * ServerStatus) :=
  try_catch
    (testConnection ;;;
     createTable ;;;
     ret (listen (PORT env_PORT) (PORT env_PORT) binds))
    (fun error => ret ([], Exited 1)).

End Program.

Arguments World DB : clear implicits.
Arguments Prog DB A : clear implicits.

(* ================================================================== *)
(** * Reference built-ins *)

Module Reference.

(** Lower-casing of the letters A to Z, other code units kept: what
    [toLowerCase] does on a string of ASCII characters. *)
Definition lower (c : codeunit) : codeunit :=
  if ((0x41 <=? c) && (c <=? 0x5A))%N then (c + 0x20)%N else c.

Definition toLowerCase (s : jsstring) : jsstring := map lower s.

(** ** A JSON reader (ECMA-404 grammar, as [JSON.parse] accepts it) *)

Definition is_json_ws (c : codeunit) : bool :=
  ((c =? 0x20) || (c =? 0x09) || (c =? 0x0A) || (c =? 0x0D))%N.

Fixpoint skip_ws (s : jsstring) : jsstring :=
  match s with
  | c :: s' => if is_json_ws c then skip_ws s' else s
  | [] => []
  end.

Definition is_digit (c : codeunit) : bool := ((0x30 <=? c) && (c <=? 0x39))%N.

Definition hex_digit (c : codeunit) : option N :=
  if is_digit c then Some (c - 0x30)%N
  else if ((0x41 <=? c) && (c <=? 0x46))%N then Some (c - 0x41 + 10)%N
  else if ((0x61 <=? c) && (c <=? 0x66))%N then Some (c - 0x61 + 10)%N
  else None.

Definition hex4 (a b c d : codeunit) : option codeunit :=
  match hex_digit a, hex_digit b, hex_digit c, hex_digit d with
  | Some x, Some y, Some z, Some t => Some (((x * 16 + y) * 16 + z) * 16 + t)%N
  | _, _, _, _ => None
  end.

(** The character after a backslash, [u] apart. *)
Definition unescape (c : codeunit) : option codeunit :=
  if (c =? 0x22)%N then Some 0x22%N        (* quote *)
  else if (c =? 0x5C)%N then Some 0x5C%N   (* backslash *)
  else if (c =? 0x2F)%N then Some 0x2F%N   (* slash *)
  else if (c =? 0x62)%N then Some 0x08%N   (* b *)
  else if (c =? 0x66)%N then Some 0x0C%N   (* f *)
  else if (c =? 0x6E)%N then Some 0x0A%N   (* n *)
  else if (c =? 0x72)%N then Some 0x0D%N   (* r *)
  else if (c =? 0x74)%N then Some 0x09%N   (* t *)
  else None.

Definition prepend (c : codeunit) (r : option (jsstring * jsstring)) : option (jsstring * jsstring) :=
  match r with
  | Some (str, rest) => Some (c :: str, rest)
  | None => None
  end.

(** The characters of a string up to its closing quote, and what follows. *)
Fixpoint read_string (s : jsstring) : option (jsstring * jsstring) :=
  match s with
  | [] => None
  | c :: r =>
      if (c =? 0x22)%N then Some ([], r)
      else if (c =? 0x5C)%N then
        match r with
        | [] => None
        | e :: r1 =>
            if (e =? 0x75)%N then
              match r1 with
              | h1 :: h2 :: h3 :: h4 :: r2 =>
                  match hex4 h1 h2 h3 h4 with
                  | Some u => prepend u (read_string r2)
                  | None => None
                  end
              | _ => None
              end
            else
              match unescape e with
              | Some u => prepend u (read_string r1)
              | None => None
              end
        end
      else if (c <? 0x20)%N then None
      else prepend c (read_string r)
  end.

(** A run of digits: its value on top of [acc], how many there are, and
    what follows. *)
Fixpoint read_digits (acc : Z) (n : Z) (s : jsstring) : Z * Z * jsstring :=
  match s with
  | c :: r =>
      if is_digit c then read_digits (acc * 10 + Z.of_N (c - 0x30)) (n + 1) r
      else (acc, n, s)
  | [] => (acc, n, s)
  end.

Definition read_exponent (s : jsstring) : option (Z * jsstring) :=
  match s with
  | c :: r =>
      if ((c =? 0x65) || (c =? 0x45))%N then
        let '(sign, r1) :=
          match r with
          | d :: r' => if (d =? 0x2B)%N then (1%Z, r')
                       else if (d =? 0x2D)%N then ((-1)%Z, r')
                       else (1%Z, r)
          | [] => (1%Z, r)
          end in
        let '(v, n, r2) := read_digits 0 0 r1 in
        if (n =? 0)%Z then None else Some ((sign * v)%Z, r2)
      else Some (0%Z, s)
  | [] => Some (0%Z, s)
  end.

Definition read_fraction (int : Z) (s : jsstring) : option (Z * Z * jsstring) :=
  match s with
  | c :: r =>
      if (c =? 0x2E)%N then
        let '(v, n, r1) := read_digits int 0 r in
        if (n =? 0)%Z then None else Some (v, n, r1)
      else Some (int, 0%Z, s)
  | [] => Some (int, 0%Z, s)
  end.

(** An optional minus sign; then a lone 0, or a digit from 1 to 9 followed
    by digits; then optionally a dot and one or more digits; then
    optionally e or E, an optional sign, and one or more digits. *)
Definition read_number (s : jsstring) : option (JSValue * jsstring) :=
  let '(sign, s1) :=
    match s with
    | c :: r => if (c =? 0x2D)%N then ((-1)%Z, r) else (1%Z, s)
    | [] => (1%Z, s)
    end in
  match s1 with
  | c :: r =>
      if is_digit c then
        let '(int, _, r1) :=
          if (c =? 0x30)%N then (0%Z, 1%Z, r) else read_digits 0 0 s1 in
        match read_fraction int r1 with
        | Some (m, places, r2) =>
            match read_exponent r2 with
            | Some (e, r3) => Some (JSNumber (sign * m) (e - places), r3)
            | None => None
            end
        | None => None
        end
      else None
  | [] => None
  end.

(** [props[k] = v]: a repeated key keeps its place and takes the new
    value. *)
Fixpoint set_prop (k : jsstring) (v : JSValue) (props : list (jsstring * JSValue))
  : list (jsstring * JSValue) :=
  match props with
  | [] => [(k, v)]
  | (k', v') :: rest =>
      if str_eqb k k' then (k', v) :: rest else (k', v') :: set_prop k v rest
  end.

Definition literal (word : string) (v : JSValue) (s : jsstring) : option (JSValue * jsstring) :=
  if startsWith s (js word)
  then Some (v, skipn (String.length word) s)
  else None.

Fixpoint read_value (fuel : nat) (s : jsstring) {struct fuel} : option (JSValue * jsstring) :=
  match fuel with
  | O => None
  | S fuel' =>
      match skip_ws s with
      | [] => None
      | c :: r =>
          if (c =? 0x22)%N then
            match read_string r with
            | Some (str, r') => Some (JSString str, r')
            | None => None
            end
          else if (c =? 0x5B)%N then
            match skip_ws r with
            | d :: r' =>
                if (d =? 0x5D)%N then Some (JSArray [], r')
                else match read_elements fuel' r with
                     | Some (items, r'') => Some (JSArray items, r'')
                     | None => None
                     end
            | [] => None
            end
          else if (c =? 0x7B)%N then
            match skip_ws r with
            | d :: r' =>
                if (d =? 0x7D)%N then Some (JSObject [], r')
                else match read_members fuel' [] r with
                     | Some (props, r'') => Some (JSObject props, r'')
                     | None => None
                     end
            | [] => None
            end
          else if (c =? 0x74)%N then literal "true" (JSBool true) (c :: r)
          else if (c =? 0x66)%N then literal "false" (JSBool false) (c :: r)
          else if (c =? 0x6E)%N then literal "null" JSNull (c :: r)
          else read_number (c :: r)
      end
  end
with read_elements (fuel : nat) (s : jsstring) {struct fuel} : option (list JSValue * jsstring) :=
  match fuel with
  | O => None
  | S fuel' =>
      match read_value fuel' s with
      | Some (v, r) =>
          match skip_ws r with
          | c :: r' =>
              if (c =? 0x2C)%N then
                match read_elements fuel' r' with
                | Some (vs, r'') => Some (v :: vs, r'')
                | None => None
                end
              else if (c =? 0x5D)%N then Some ([v], r')
              else None
          | [] => None
          end
      | None => None
      end
  end
with read_members (fuel : nat) (acc : list (jsstring * JSValue)) (s : jsstring) {struct fuel}
  : option (list (jsstring * JSValue) * jsstring) :=
  match fuel with
  | O => None
  | S fuel' =>
      match skip_ws s with
      | q :: r =>
          if (q =? 0x22)%N then
            match read_string r with
            | Some (k, r1) =>
                match skip_ws r1 with
                | colon :: r2 =>
                    if (colon =? 0x3A)%N then
                      match read_value fuel' r2 with
                      | Some (v, r3) =>
                          match skip_ws r3 with
                          | c :: r4 =>
                              if (c =? 0x2C)%N then read_members fuel' (set_prop k v acc) r4
                              else if (c =? 0x7D)%N then Some (set_prop k v acc, r4)
                              else None
                          | [] => None
                          end
                      | None => None
                      end
                    else None
                | [] => None
                end
            | None => None
            end
          else None
      | [] => None
      end
  end.

(** A whole text: one value, white space around it and nothing else.  Two
    units of fuel per code unit cover every nesting. *)
Definition JSON_parse (text : jsstring) : option JSValue :=
  match read_value (2 * List.length text + 2) text with
  | Some (v, rest) => match skip_ws rest with [] => Some v | _ => None end
  | None => None
  end.

End Reference.

#[export] Instance reference_builtins : Builtins :=
  {| JSON_parse := Reference.JSON_parse; toLowerCase := Reference.toLowerCase |}.

(* ================================================================== *)
(** * A reference store *)

(** PostgreSQL restricted to what the seven statements read or change:
    the table [contacts] that an unqualified name resolves to, with its
    columns, indexes, unique constraints, rows and [id] sequence, and the
    columns of the tables called [contacts] in other schemas, which the
    columns query lists as well since it selects by table name alone.
    Checks on the values of a row other than uniqueness (length, encoding,
    NOT NULL) are not part of it. *)
Module Postgres.

Record Column : Type := {
  column_name : jsstring;
  data_type : jsstring;
  is_nullable : jsstring
}.

Record Store : Type := {
  table : option (list Column);          (* [None]: no table [contacts] on the search path *)
  elsewhere : list Column;               (* columns of [contacts] tables of other schemas *)
  indexes : list jsstring;               (* the names of its indexes *)
  uniques : list (jsstring * jsstring);  (* constraint name, column *)
  rows : list (list (jsstring * JSValue));
  next_id : Z;                           (* next value of the id sequence *)
  clock : jsstring                       (* what [NOW()] shows *)
}.

Definition column (name type nullable : string) : Column :=
  {| column_name := js name; data_type := js type; is_nullable := js nullable |}.

(** The columns [CREATE TABLE] of the file declares. *)
Definition created_columns : list Column :=
  [ column "id" "integer" "NO";
    column "name" "character varying" "NO";
    column "email" "character varying" "NO";
    column "phone" "character varying" "YES";
    column "message" "text" "NO";
    column "created_at" "timestamp with time zone" "YES" ].


Definition has_column (name : jsstring) (cols : list Column) : bool :=
  existsb (fun c => str_eqb (column_name c) name) cols.

Definition has_index (name : jsstring) (s : Store) : bool :=
  existsb (str_eqb name) (indexes s).

(** The columns of every table called [contacts]: what
    [WHERE table_name = 'contacts'] selects.  The query orders the rows by
    ordinal position, which does not say how the columns of two tables
    interleave; here those of the search path come first. *)
Definition visible (s : Store) : list Column :=
  match table s with Some cols => cols | None => [] end ++ elsewhere s.

(** A row of [information_schema.columns] as the query selects it. *)
Definition column_row (c : Column) : JSValue :=
  JSObject [(js "column_name", JSString (column_name c));
            (js "data_type", JSString (data_type c));
            (js "is_nullable", JSString (is_nullable c))].

Definition rejected (sqlstate : string) (constraint : option jsstring) : Completion (list JSValue) :=
  Throw (DriverError (Some (js sqlstate)) constraint).

Definition set_table (s : Store) (cols : list Column) : Store :=
  {| table := Some cols; elsewhere := elsewhere s; indexes := indexes s;
     uniques := uniques s; rows := rows s; next_id := next_id s; clock := clock s |}.

(** [CREATE TABLE] where there is none: the six columns, no rows, the
    primary key on [id] with the index that enforces it, and a new
    sequence behind [id]. *)
Definition new_table (s : Store) : Store :=
  {| table := Some created_columns; elsewhere := elsewhere s;
     indexes := [js "contacts_pkey"];
     uniques := [(js "contacts_pkey", js "id")];
     rows := []; next_id := 1; clock := clock s |}.

Definition add_index (s : Store) (name : jsstring) : Store :=
  {| table := table s; elsewhere := elsewhere s; indexes := indexes s ++ [name];
     uniques := uniques s; rows := rows s; next_id := next_id s; clock := clock s |}.

(** [CREATE INDEX IF NOT EXISTS name ON contacts(col)] *)
Definition create_index (name col : string) (s : Store) : Completion (list JSValue) * Store :=
  match table s with
  | None => (rejected "42P01" None, s)
  | Some cols =>
      if has_index (js name) s then (Normal [], s)
      else if has_column (js col) cols then (Normal [], add_index s (js name))
      else (rejected "42703" None, s)
  end.

(** [m * 10^e] and [n * 10^f] are the same number. *)
Definition same_number (m e n f : Z) : bool :=
  if (e <=? f)%Z then (m =? n * 10 ^ (f - e))%Z else (m * 10 ^ (e - f) =? n)%Z.

(** Two SQL values are duplicates of each other for a unique constraint
    when they are equal strings or equal numbers; NULL never is. *)
Definition duplicate (a b : JSValue) : bool :=
  match a, b with
  | JSString x, JSString y => str_eqb x y
  | JSNumber m e, JSNumber n f => same_number m e n f
  | _, _ => false
  end.

(** The first unique constraint that the new row would break. *)
Fixpoint violated (cs : list (jsstring * jsstring)) (new : list (jsstring * JSValue))
  (old : list (list (jsstring * JSValue))) : option jsstring :=
  match cs with
  | [] => None
  | (cname, col) :: cs' =>
      if existsb (fun r => duplicate (lookup col r) (lookup col new)) old
      then Some cname
      else violated cs' new old
  end.

Definition insert (name email phone message : JSValue) (s : Store)
  : Completion (list JSValue) * Store :=
  match table s with
  | None => (rejected "42P01" None, s)
  | Some cols =>
      if forallb (fun c => has_column (js c) cols) ["id"; "name"; "email"; "phone"; "message"]%string
      then
        let id := JSNumber (next_id s) 0 in
        let new := [(js "id", id); (js "name", name); (js "email", email);
                    (js "phone", phone); (js "message", message)] in
        (* the sequence moves on whether or not the row is kept *)
        let s' := {| table := table s; elsewhere := elsewhere s; indexes := indexes s;
                     uniques := uniques s; rows := rows s; next_id := next_id s + 1;
                     clock := clock s |} in
        match violated (uniques s) new (rows s) with
        | Some cname => (rejected "23505" (Some cname), s')
        | None =>
            (Normal [JSObject [(js "id", id)]],
             {| table := table s; elsewhere := elsewhere s; indexes := indexes s;
                uniques := uniques s; rows := rows s ++ [new]; next_id := next_id s + 1;
                clock := clock s |})
        end
      else (rejected "42703" None, s)
  end.

Definition run (q : Query) (s : Store) : Completion (list JSValue) * Store :=
  match q with
  | SelectNow =>
      (Normal [JSObject [(js "current_time", JSString (clock s))]], s)
  | SelectColumns =>
      (Normal (map column_row (visible s)), s)
  | AlterAddCreatedAt =>
      match table s with
      | None => (rejected "42P01" None, s)
      | Some cols =>
          if has_column (js "created_at") cols then (rejected "42701" None, s)
          else (Normal [],
                set_table s (cols ++ [column "created_at" "timestamp with time zone" "YES"]))
      end
  | CreateTable =>
      match table s with
      | None => (Normal [], new_table s)
      | Some _ => (Normal [], s)
      end
  | CreateIndexEmail => create_index "idx_contacts_email" "email" s
  | CreateIndexCreatedAt => create_index "idx_contacts_created_at" "created_at" s
  | InsertContact name email phone message => insert name email phone message s
  end.

(** A server with nothing in it. *)
Definition empty : Store :=
  {| table := None; elsewhere := []; indexes := []; uniques := []; rows := [];
     next_id := 1; clock := js "2024-01-01 00:00:00+00" |}.

End Postgres.

#[export] Instance postgres : Database Postgres.Store :=
  {| run_query := Postgres.run |}.

(** The world of a process that has just connected to [s]. *)
Definition connected {DB : Type} (s : DB) : World DB := {| store := s; sent := [] |}.

(** A JSON text written with an apostrophe wherever the text has a double
    quote. *)
Definition json_text (s : string) : jsstring :=
  map (fun c => if (c =? 0x27)%N then 0x22%N else c) (js s).

(** A POST to [/submit-contact] whose body arrives in one chunk. *)
Definition post (body : jsstring) : Request :=
  {| method := js "POST"; url := js "/submit-contact"; chunks := [body] |}.

(* ================================================================== *)
(** * Vocabulary of the statements *)

Definition whitespace_only (s : jsstring) : bool := forallb is_whitespace s.

(** A field that the payload does not have, or has as [null]. *)
Definition absent (v : JSValue) : bool :=
  match v with
  | JSUndefined | JSNull => true
  | _ => false
  end.

(** A field that is a string of white space only (the empty string too). *)
Definition blank_string (v : JSValue) : bool :=
  match v with
  | JSString s => whitespace_only s
  | _ => false
  end.

(** A field that is a string with something other than white space. *)
Definition text (v : JSValue) : bool :=
  match v with
  | JSString s => negb (whitespace_only s)
  | _ => false
  end.

(** A field that is neither absent nor a string: a boolean, a number, an
    array or an object. *)
Definition other_kind (v : JSValue) : bool :=
  match v with
  | JSBool _ | JSNumber _ _ | JSArray _ | JSObject _ => true
  | _ => false
  end.

(** A field that is a string matching the e-mail pattern as it stands. *)
Definition well_formed_email (v : JSValue) : bool :=
  match v with
  | JSString s => matches emailRegex s
  | _ => false
  end.

(** A character that is neither white space nor an at sign, and a run of
    one or more of them. *)
Definition plain (c : codeunit) : bool :=
  negb (is_whitespace c) && negb (c =? 0x40)%N.

Definition plain_run (s : jsstring) : bool :=
  match s with
  | [] => false
  | _ => forallb plain s
  end.

(** An address with no at sign, or with no dot after an at sign, or with
    white space in it. *)
Definition ill_formed (s : jsstring) : Prop :=
  ~ In 0x40%N s \/
  (exists a d, s = a ++ 0x40%N :: d /\ ~ In 0x2E%N d) \/
  existsb is_whitespace s = true.

(** A field that is absent or a string. *)
Definition optional_string (v : JSValue) : bool :=
  match v with
  | JSUndefined | JSNull | JSString _ => true
  | _ => false
  end.

(** What the catch clause of [saveContact] returns. *)
Definition is_error_result (r : JSValue) : Prop :=
  r = email_used \/ r = phone_used \/ r = not_saved.

(** The request is a POST to [/submit-contact]. *)
Definition submits (req : Request) : bool :=
  str_eqb (method req) (js "POST") && str_eqb (url req) (js "/submit-contact").

(** The field [k] of a parsed payload. *)
Definition field (data : JSValue) (k : string) : JSValue :=
  match data with
  | JSObject props => lookup (js k) props
  | _ => JSUndefined
  end.

(** [trim] of a field that is a string. *)
Definition trimmed (v : JSValue) : JSValue :=
  match v with
  | JSString s => JSString (trim s)
  | _ => v
  end.

(** The phone number handed to the store: the trimmed string, or [null]
    when there is none or nothing is left of it. *)
Definition phone_or_null (v : JSValue) : JSValue :=
  match v with
  | JSString s => js_or (JSString (trim s)) JSNull
  | _ => JSNull
  end.

Section Vocabulary.

Context {B : Builtins}.

(** The body of the request is not blank and [JSON.parse] reads it as
    [data].  (A blank body is answered before it is parsed.) *)
Definition payload (req : Request) (data : JSValue) : Prop :=
  whitespace_only (request_body req) = false /\
  JSON_parse (request_body req) = Some data.

(** The lower-cased trim of a field that is a string. *)
Definition normalised_email (v : JSValue) : JSValue :=
  match v with
  | JSString s => JSString (toLowerCase (trim s))
  | _ => v
  end.

(** The statement a valid submission sends. *)
Definition insert_of (data : JSValue) : Query :=
  InsertContact (trimmed (field data "name"))
                (normalised_email (field data "email"))
                (phone_or_null (field data "phone"))
                (trimmed (field data "message")).

End Vocabulary.

(** The first of name, email and message that is not a string with text
    satisfies [p]. *)
Definition first_without_text (p : JSValue -> bool) (data : JSValue) : bool :=
  let name := field data "name" in
  let email := field data "email" in
  let message := field data "message" in
  p name
  || text name && p email
  || text name && text email && p message.

(** The value of a string of decimal digits, which is what [server.listen]
    makes of such a string. *)
Definition digits_value (s : jsstring) : option Z :=
  match s with
  | [] => None
  | _ => if forallb Reference.is_digit s
         then Some (fold_left (fun acc c => acc * 10 + Z.of_N (c - 0x30))%Z s 0%Z)
         else None
  end.

Definition port_number (p : Port) : option Z :=
  match p with
  | PortNumber n => Some n
  | PortString s => digits_value s
  end.

(** ** The schema a run of the initialiser is expected to leave *)


(** The table is not there, or has the five columns a submission fills. *)
Definition absent_or_usable (s : Postgres.Store) : bool :=
  match Postgres.table s with
  | None => true
  | Some cols =>
      forallb (fun c => Postgres.has_column (js c) cols)
        ["id"; "name"; "email"; "phone"; "message"]%string
  end.


(** How many columns of the table are called [name]. *)
Definition copies (name : jsstring) (s : Postgres.Store) : nat :=
  match Postgres.table s with
  | None => 0
  | Some cols => List.length (filter (fun c => str_eqb (Postgres.column_name c) name) cols)
  end.







(** The store after [createTable] has run on it once, and twice. *)
Definition initialised (s : Postgres.Store) : Postgres.Store :=
  store (snd (createTable (connected s))).


(** A process connected to a fresh server on which [createTable] has run. *)
Definition ready : World Postgres.Store := connected (initialised Postgres.empty).

(** A table from before the file: an [id] and a [name] and nothing else. *)
Definition legacy : Postgres.Store :=
  {| Postgres.table := Some [Postgres.column "id" "integer" "NO";
                             Postgres.column "name" "text" "YES"];
     Postgres.elsewhere := []; Postgres.indexes := []; Postgres.uniques := []; Postgres.rows := [];
     Postgres.next_id := 1; Postgres.clock := Postgres.clock Postgres.empty |}.

(** A table whose e-mail column was given a unique constraint, holding one
    submission. *)
Definition with_unique_email : Postgres.Store :=
  {| Postgres.table := Some Postgres.created_columns;
     Postgres.elsewhere := [];
     Postgres.indexes := [js "contacts_pkey"; js "contacts_email_key"];
     Postgres.uniques := [(js "contacts_pkey", js "id"); (js "contacts_email_key", js "email")];
     Postgres.rows := [[(js "id", JSNumber 1 0); (js "name", JSString (js "Jo"));
                        (js "email", JSString (js "jo@example.com"));
                        (js "phone", JSNull); (js "message", JSString (js "hi"))]];
     Postgres.next_id := 2; Postgres.clock := Postgres.clock Postgres.empty |}.

(** ** Vocabulary of the further properties *)

Section Invariant.

Context {B : Builtins}.

(** A string that is not empty and has no white space at either end. *)
Definition tidy (s : jsstring) : Prop := s <> [] /\ trim s = s.

(** An insert as the handler lets it through: a tidy name and message, the
    lower-casing of an address that matches the pattern, and a phone number
    that is a tidy string or null. *)
Definition validated_insert (q : Query) : Prop :=
  match q with
  | InsertContact (JSString n) (JSString e) p (JSString m) =>
      tidy n /\ tidy m /\
      (exists e0, matches emailRegex e0 = true /\ e = toLowerCase e0) /\
      (p = JSNull \/ exists s, p = JSString s /\ tidy s)
  | _ => False
  end.

End Invariant.

(** The world after one statement. *)
Definition world_after {DB : Type} {D : Database DB} (q : Query) (w : World DB) : World DB :=
  {| store := snd (run_query q (store w)); sent := sent w ++ [q] |}.

(** The replies that end a request without a call of the repository. *)
Definition quiet_reply (r : Reply) : Prop :=
  r = Preflight \/ (exists kind path, r = Static kind path) \/
  r = Json 404 page_not_found \/ r = Json 400 no_data \/
  r = Json 400 required_fields \/ r = Json 400 invalid_email \/
  r = Json 500 server_error.

(** A parsed payload that is not null and has no keys to read: a boolean,
    a number, a string or an array. *)
Definition unkeyed (data : JSValue) : bool :=
  match data with
  | JSBool _ | JSNumber _ _ | JSString _ | JSArray _ => true
  | _ => false
  end.

(** A table whose phone column was given a unique constraint, holding one
    submission. *)
Definition with_unique_phone : Postgres.Store :=
  {| Postgres.table := Some Postgres.created_columns;
     Postgres.elsewhere := [];
     Postgres.indexes := [js "contacts_pkey"; js "contacts_phone_key"];
     Postgres.uniques := [(js "contacts_pkey", js "id"); (js "contacts_phone_key", js "phone")];
     Postgres.rows := [[(js "id", JSNumber 1 0); (js "name", JSString (js "Jo"));
                        (js "email", JSString (js "jo@example.com"));
                        (js "phone", JSString (js "555 1234"));
                        (js "message", JSString (js "hi"))]];
     Postgres.next_id := 2; Postgres.clock := Postgres.clock Postgres.empty |}.

(** A client that resolves every statement to no rows and counts them. *)
Definition silent : Database nat :=
  {| run_query := fun _ n => (Normal [], S n) |}.

(* ================================================================== *)
(** * Strings and trimming *)

Lemma str_eqb_refl (a : jsstring) : str_eqb a a = true.
Proof.
  induction a as [|x a IH]; simpl; [reflexivity|].
  now rewrite N.eqb_refl, IH.
Qed.

Lemma str_eqb_eq (a b : jsstring) : str_eqb a b = true <-> a = b.
Proof.
  split; [|intros ->; apply str_eqb_refl].
  revert b; induction a as [|x a IH]; intros [|y b]; simpl; try discriminate; auto.
  intros H. apply andb_true_iff in H as [Hx Hab].
  apply N.eqb_eq in Hx. f_equal; auto.
Qed.

Lemma whitespace_only_app (a b : jsstring) :
  whitespace_only (a ++ b) = whitespace_only a && whitespace_only b.
Proof. apply forallb_app. Qed.

Lemma whitespace_only_rev (s : jsstring) :
  whitespace_only (rev s) = whitespace_only s.
Proof.
  induction s as [|c s IH]; simpl; [reflexivity|].
  rewrite whitespace_only_app, IH. simpl.
  rewrite andb_true_r. apply andb_comm.
Qed.

(** What [trimStart] leaves is empty exactly on white space only, and
    otherwise starts with a character that is not white space. *)
(** Zero, and what is nearer to zero than to the least positive double,
    is falsy: [2e-324] is, [3e-324] is not. *)
Lemma truthy_number :
  truthy (JSNumber 0 5) = false /\
  truthy (JSNumber 1 (-400)) = false /\
  truthy (JSNumber 2 (-324)) = false /\
  truthy (JSNumber 3 (-324)) = true /\
  truthy (JSNumber (-5551234) 0) = true.
Proof. repeat split; vm_compute; reflexivity. Qed.

Lemma trimStart_head (s : jsstring) :
  match trimStart s with
  | [] => whitespace_only s = true
  | c :: _ => is_whitespace c = false /\ whitespace_only s = false
  end.
Proof.
  induction s as [|c s IH]; simpl; [reflexivity|].
  destruct (is_whitespace c) eqn:E; simpl.
  - exact IH.
  - now rewrite E.
Qed.

Lemma trimStart_whitespace (s : jsstring) :
  whitespace_only s = true -> trimStart s = [].
Proof.
  intros H. pose proof (trimStart_head s) as T.
  destruct (trimStart s); [reflexivity|].
  destruct T as [_ T]. congruence.
Qed.

Lemma trimStart_not_nil (s : jsstring) :
  whitespace_only s = false -> trimStart s <> [].
Proof.
  intros H E. pose proof (trimStart_head s) as T.
  rewrite E in T. congruence.
Qed.

Lemma whitespace_only_trimStart (s : jsstring) :
  whitespace_only (trimStart s) = whitespace_only s.
Proof.
  induction s as [|c s IH]; simpl; [reflexivity|].
  destruct (is_whitespace c) eqn:E; simpl; [exact IH|].
  now rewrite E.
Qed.

Lemma trim_nil (s : jsstring) : trim s = [] <-> whitespace_only s = true.
Proof.
  unfold trim, trimEnd. split.
  - intros H.
    destruct (whitespace_only s) eqn:W; [reflexivity|exfalso].
    assert (R : trimStart (rev (trimStart s)) = []).
    { destruct (trimStart (rev (trimStart s))) as [|c l]; [reflexivity|].
      simpl in H. now destruct (rev l). }
    revert R. apply trimStart_not_nil.
    now rewrite whitespace_only_rev, whitespace_only_trimStart.
  - intros H. now rewrite (trimStart_whitespace s H).
Qed.

Lemma truthy_trim (s : jsstring) :
  truthy (JSString (trim s)) = negb (whitespace_only s).
Proof.
  destruct (whitespace_only s) eqn:W; simpl.
  - apply trim_nil in W. now rewrite W.
  - destruct (trim s) eqn:T; [|reflexivity].
    apply trim_nil in T. congruence.
Qed.

(** A string without white space is its own trim. *)
Lemma trimStart_id (s : jsstring) :
  existsb is_whitespace s = false -> trimStart s = s.
Proof.
  destruct s as [|c s]; simpl; [reflexivity|].
  intros H. apply orb_false_iff in H as [H _]. now rewrite H.
Qed.

Lemma existsb_rev_false (p : codeunit -> bool) (s : jsstring) :
  existsb p s = false -> existsb p (rev s) = false.
Proof.
  induction s as [|c s IH]; simpl; [auto|].
  intros H. apply orb_false_iff in H as [Hc Hs].
  rewrite existsb_app, (IH Hs). simpl. now rewrite Hc.
Qed.

Lemma trim_id (s : jsstring) :
  existsb is_whitespace s = false -> trim s = s.
Proof.
  intros H. unfold trim, trimEnd.
  rewrite (trimStart_id s H), trimStart_id, rev_involutive; [reflexivity|].
  now apply existsb_rev_false.
Qed.

(* ================================================================== *)
(** * The matcher and the e-mail pattern *)

Lemma Lang_void_inv (s : jsstring) : Lang RVoid s -> False.
Proof. inversion 1. Qed.

Lemma Lang_eps_inv (s : jsstring) : Lang REps s -> s = [].
Proof. now inversion 1. Qed.

Lemma Lang_class_inv (n : bool) (atoms : list ClassAtom) (s : jsstring) :
  Lang (RClass n atoms) s -> exists c, s = [c] /\ in_class n atoms c = true.
Proof. inversion 1; subst; eauto. Qed.

Lemma Lang_seq_inv (r1 r2 : regex) (s : jsstring) :
  Lang (RSeq r1 r2) s -> exists s1 s2, s = s1 ++ s2 /\ Lang r1 s1 /\ Lang r2 s2.
Proof. inversion 1; subst; eauto. Qed.

Lemma Lang_alt_inv (r1 r2 : regex) (s : jsstring) :
  Lang (RAlt r1 r2) s -> Lang r1 s \/ Lang r2 s.
Proof. inversion 1; subst; auto. Qed.

Lemma Lang_seq_cons (r1 r2 : regex) (c : codeunit) (s1 s2 : jsstring) :
  Lang r1 (c :: s1) -> Lang r2 s2 -> Lang (RSeq r1 r2) (c :: s1 ++ s2).
Proof. intros H1 H2. apply (LSeq H1 H2). Qed.

Lemma nullable_Lang (r : regex) : nullable r = true <-> Lang r [].
Proof.
  induction r as [| |n atoms|r1 IH1 r2 IH2|r1 IH1 r2 IH2|r IH]; simpl.
  - split; [discriminate|intros H; destruct (Lang_void_inv H)].
  - split; [constructor|reflexivity].
  - split; [discriminate|].
    intros H. apply Lang_class_inv in H as (c & E & _). discriminate.
  - rewrite andb_true_iff, IH1, IH2. split.
    + intros [H1 H2]. apply (LSeq H1 H2).
    + intros H. apply Lang_seq_inv in H as (s1 & s2 & E & H1 & H2).
      symmetry in E. apply app_eq_nil in E as [-> ->]. now split.
  - rewrite orb_true_iff, IH1, IH2. split.
    + intros [H|H]; [now apply LAltL|now apply LAltR].
    + apply Lang_alt_inv.
  - split; [constructor|reflexivity].
Qed.

(** A non-empty word of a starred language starts with a non-empty word of
    the language. *)
Lemma Lang_star_cons (r : regex) (c : codeunit) (s : jsstring) :
  Lang (RStar r) (c :: s) ->
  exists s1 s2, s = s1 ++ s2 /\ Lang r (c :: s1) /\ Lang (RStar r) s2.
Proof.
  intros H. remember (RStar r) as r' eqn:Er. remember (c :: s) as t eqn:Et.
  revert s Et. induction H as [| | | | | |r0 s1 s2 H1 _ H2 IH2]; try discriminate.
  intros s Et. injection Er as ->.
  destruct s1 as [|x s1]; simpl in Et.
  - now apply IH2.
  - injection Et as -> <-. now exists s1, s2.
Qed.

Lemma deriv_Lang (c : codeunit) (r : regex) (s : jsstring) :
  Lang (deriv c r) s <-> Lang r (c :: s).
Proof.
  revert s.
  induction r as [| |n atoms|r1 IH1 r2 IH2|r1 IH1 r2 IH2|r IH]; intros s; simpl.
  - split; intros H; destruct (Lang_void_inv H).
  - split; intros H; [destruct (Lang_void_inv H)|].
    apply Lang_eps_inv in H. discriminate.
  - destruct (in_class n atoms c) eqn:E; split; intros H.
    + apply Lang_eps_inv in H as ->. now constructor.
    + apply Lang_class_inv in H as (x & Ex & _). injection Ex as _ ->. constructor.
    + destruct (Lang_void_inv H).
    + apply Lang_class_inv in H as (x & Ex & Hx). injection Ex as -> _. congruence.
  - assert (L : Lang (RSeq (deriv c r1) r2) s -> Lang (RSeq r1 r2) (c :: s)).
    { intros H. apply Lang_seq_inv in H as (s1 & s2 & -> & H1 & H2).
      apply IH1 in H1. now apply Lang_seq_cons. }
    assert (R : Lang (RSeq r1 r2) (c :: s) ->
                Lang (RSeq (deriv c r1) r2) s \/ (Lang r1 [] /\ Lang (deriv c r2) s)).
    { intros H. apply Lang_seq_inv in H as (s1 & s2 & E & H1 & H2).
      destruct s1 as [|x s1]; simpl in E.
      - subst s2. right. split; [assumption|now apply IH2].
      - injection E as -> ->. left. constructor; [now apply IH1|assumption]. }
    destruct (nullable r1) eqn:N.
    + split.
      * intros H. apply Lang_alt_inv in H as [H|H]; [now apply L|].
        apply (@LSeq r1 r2 [] (c :: s)).
        -- now apply nullable_Lang.
        -- now apply IH2.
      * intros H. apply R in H as [H|[_ H]]; [now apply LAltL|now apply LAltR].
    + split; [exact L|].
      intros H. apply R in H as [H|[H _]]; [assumption|].
      apply nullable_Lang in H. congruence.
  - split; intros H; apply Lang_alt_inv in H as [H|H].
    + apply LAltL. now apply IH1.
    + apply LAltR. now apply IH2.
    + apply LAltL. now apply IH1.
    + apply LAltR. now apply IH2.
  - split.
    + intros H. apply Lang_seq_inv in H as (s1 & s2 & -> & H1 & H2).
      apply IH in H1. apply (@LStarApp r (c :: s1) s2 H1 H2).
    + intros H. apply Lang_star_cons in H as (s1 & s2 & -> & H1 & H2).
      constructor; [now apply IH|assumption].
Qed.

(** The matcher decides the language. *)
Lemma matches_Lang (r : regex) (s : jsstring) : matches r s = true <-> Lang r s.
Proof.
  revert r. induction s as [|c s IH]; intros r; simpl.
  - apply nullable_Lang.
  - rewrite IH. apply deriv_Lang.
Qed.

Lemma Lang_star_class (n : bool) (atoms : list ClassAtom) (s : jsstring) :
  Lang (RStar (RClass n atoms)) s <-> forallb (in_class n atoms) s = true.
Proof.
  split.
  - intros H. remember (RStar (RClass n atoms)) as r eqn:Er.
    induction H as [| | | | | |r0 s1 s2 H1 _ H2 IH2]; try discriminate; [reflexivity|].
    injection Er as ->. apply Lang_class_inv in H1 as (c & -> & Hc). simpl.
    apply andb_true_iff. split; [assumption|now apply IH2].
  - induction s as [|c s IH]; simpl; [constructor|].
    intros H. apply andb_true_iff in H as [Hc Hs].
    apply (@LStarApp _ [c] s); [now constructor|now apply IH].
Qed.

Lemma in_class_plain (c : codeunit) :
  in_class true [CSpace; CChar 0x40%N] c = plain c.
Proof.
  unfold in_class, plain. simpl.
  destruct (is_whitespace c), (c =? 0x40)%N; reflexivity.
Qed.

Lemma forallb_in_class_plain (s : jsstring) :
  forallb (in_class true [CSpace; CChar 0x40%N]) s = forallb plain s.
Proof.
  induction s as [|c s IH]; [reflexivity|].
  cbn [forallb]. now rewrite in_class_plain, IH.
Qed.

Lemma Lang_plain_run (s : jsstring) :
  Lang (RPlus not_space_nor_at) s <-> plain_run s = true.
Proof.
  unfold RPlus, not_space_nor_at, plain_run. split.
  - intros H. apply Lang_seq_inv in H as (s1 & s2 & -> & H1 & H2).
    apply Lang_class_inv in H1 as (c & -> & Hc). apply Lang_star_class in H2. simpl.
    apply andb_true_iff. split.
    + now rewrite <- in_class_plain.
    + now rewrite <- forallb_in_class_plain.
  - destruct s as [|c s]; [discriminate|]. simpl. intros H.
    apply andb_true_iff in H as [Hc Hs].
    apply (@LSeq _ _ [c] s).
    + constructor. now rewrite in_class_plain.
    + apply Lang_star_class. now rewrite forallb_in_class_plain.
Qed.

Lemma Lang_char (c : codeunit) (s : jsstring) : Lang (RChar c) s <-> s = [c].
Proof.
  unfold RChar. split.
  - intros H. apply Lang_class_inv in H as (x & -> & Hx).
    unfold in_class in Hx. simpl in Hx. rewrite orb_false_r in Hx.
    apply N.eqb_eq in Hx. now subst.
  - intros ->. constructor. unfold in_class. simpl. now rewrite N.eqb_refl.
Qed.

(** What the e-mail pattern accepts: a plain run, an at sign, a plain run, a
    dot, a plain run. *)
Lemma emailRegex_shape (s : jsstring) :
  matches emailRegex s = true <->
  exists a b c,
    s = a ++ 0x40%N :: b ++ 0x2E%N :: c /\
    plain_run a = true /\ plain_run b = true /\ plain_run c = true.
Proof.
  rewrite matches_Lang. unfold emailRegex. split.
  - intros H.
    apply Lang_seq_inv in H as (a & s1 & -> & Ha & H).
    apply Lang_seq_inv in H as (x & s2 & -> & Hx & H).
    apply Lang_seq_inv in H as (b & s3 & -> & Hb & H).
    apply Lang_seq_inv in H as (y & c & -> & Hy & Hc).
    apply Lang_char in Hx, Hy. subst.
    apply Lang_plain_run in Ha, Hb, Hc.
    now exists a, b, c.
  - intros (a & b & c & -> & Ha & Hb & Hc).
    apply Lang_plain_run in Ha, Hb, Hc.
    constructor; [assumption|].
    apply (@LSeq _ _ [0x40%N] (b ++ 0x2E%N :: c)); [now apply Lang_char|].
    constructor; [assumption|].
    apply (@LSeq _ _ [0x2E%N] c); [now apply Lang_char|assumption].
Qed.

Lemma plain_no_whitespace (s : jsstring) :
  forallb plain s = true -> existsb is_whitespace s = false.
Proof.
  induction s as [|c s IH]; simpl; [reflexivity|].
  intros H. apply andb_true_iff in H as [Hc Hs].
  unfold plain in Hc. apply andb_true_iff in Hc as [Hc _].
  apply negb_true_iff in Hc. now rewrite Hc, IH.
Qed.

Lemma plain_no_at (s : jsstring) :
  forallb plain s = true -> ~ In 0x40%N s.
Proof.
  induction s as [|c s IH]; simpl; [tauto|].
  intros H. apply andb_true_iff in H as [Hc Hs].
  intros [E|I]; [|now apply IH].
  subst c. discriminate Hc.
Qed.

Lemma plain_run_forallb (s : jsstring) :
  plain_run s = true -> forallb plain s = true.
Proof. destruct s; [discriminate|auto]. Qed.

(** An address the pattern accepts has no white space in it. *)
Lemma emailRegex_no_whitespace (s : jsstring) :
  matches emailRegex s = true -> existsb is_whitespace s = false.
Proof.
  intros H. apply emailRegex_shape in H as (a & b & c & -> & Ha & Hb & Hc).
  apply plain_run_forallb, plain_no_whitespace in Ha, Hb, Hc.
  rewrite existsb_app, Ha. simpl. rewrite existsb_app, Hb. simpl. exact Hc.
Qed.

Lemma whitespace_only_false (s : jsstring) :
  s <> [] -> existsb is_whitespace s = false -> whitespace_only s = false.
Proof.
  destruct s as [|c s]; [congruence|]. simpl.
  intros _ H. apply orb_false_iff in H as [-> _]. reflexivity.
Qed.

(** It is not blank, and trimming leaves it as it is. *)
Lemma emailRegex_text (s : jsstring) :
  matches emailRegex s = true -> whitespace_only s = false /\ trim s = s.
Proof.
  intros H. pose proof (emailRegex_no_whitespace s H) as W. split.
  - apply whitespace_only_false; [|assumption].
    intros ->. discriminate H.
  - now apply trim_id.
Qed.

(** Where the one at sign of a string is. *)
Lemma split_at_unique (x : codeunit) (a a' r r' : jsstring) :
  a ++ x :: r = a' ++ x :: r' -> ~ In x a -> ~ In x r -> a = a' /\ r = r'.
Proof.
  revert a'. induction a as [|z a IH]; intros [|y a'] E Ha Hr; simpl in E.
  - injection E as ->. now split.
  - injection E as <- ->. exfalso. apply Hr, in_or_app. right. now left.
  - injection E as -> _. exfalso. apply Ha. now left.
  - injection E as -> E. destruct (IH a' E) as [-> ->]; auto.
    intros I. apply Ha. now right.
Qed.

(** The three ways of being ill-formed that the specification names: no at
    sign, no dot after the at sign, white space somewhere. *)
Lemma emailRegex_rejects (s : jsstring) :
  ~ In 0x40%N s \/
  (exists a d, s = a ++ 0x40%N :: d /\ ~ In 0x2E%N d) \/
  existsb is_whitespace s = true ->
  matches emailRegex s = false.
Proof.
  intros H. destruct (matches emailRegex s) eqn:M; [exfalso|reflexivity].
  pose proof (emailRegex_no_whitespace s M) as W.
  apply emailRegex_shape in M as (a & b & c & -> & Ha & Hb & Hc).
  destruct H as [H|[(a' & d & E & H)|H]].
  - apply H, in_or_app. right. now left.
  - apply plain_run_forallb, plain_no_at in Ha, Hb, Hc.
    apply split_at_unique in E as [_ <-]; [|assumption|].
    + apply H, in_or_app. right. now left.
    + intros I. apply in_app_or in I as [I|[I|I]]; [tauto|discriminate|tauto].
  - congruence.
Qed.

(* ================================================================== *)
(** * The submission handler *)

Section Handler.

Context {B : Builtins} {DB : Type} {D : Database DB}.

Lemma submits_inv (req : Request) :
  submits req = true ->
  method req = js "POST" /\ url req = js "/submit-contact".
Proof.
  unfold submits. intros H. apply andb_true_iff in H as [Hm Hu].
  now apply str_eqb_eq in Hm, Hu.
Qed.

(** A POST to [/submit-contact] is answered by the ['end'] listener. *)
Lemma submits_on_end (req : Request) :
  submits req = true -> requestHandler req = on_end (request_body req).
Proof.
  intros H. apply submits_inv in H as [Hm Hu].
  unfold requestHandler. rewrite Hm, Hu. reflexivity.
Qed.

Lemma no_text_absent (v : JSValue) : absent v = true -> no_text v = Normal true.
Proof. destruct v; try discriminate; reflexivity. Qed.

Lemma no_text_blank (v : JSValue) : blank_string v = true -> no_text v = Normal true.
Proof.
  destruct v; try discriminate. simpl. intros H.
  unfold no_text, opt_trim, call_trim, cbind. now rewrite truthy_trim, H.
Qed.

Lemma no_text_text (v : JSValue) : text v = true -> no_text v = Normal false.
Proof.
  destruct v; try discriminate. simpl. intros H.
  unfold no_text, opt_trim, call_trim, cbind. rewrite truthy_trim. now rewrite H.
Qed.

Lemma no_text_other (v : JSValue) : other_kind v = true -> no_text v = Throw TypeError.
Proof. destruct v; try discriminate; reflexivity. Qed.

(** The listener on a body that parses to an object, step by step. *)
Lemma on_end_object (body : jsstring) (props : list (jsstring * JSValue)) (w : World DB) :
  whitespace_only body = false ->
  JSON_parse body = Some (JSObject props) ->
  let name := lookup (js "name") props in
  let email := lookup (js "email") props in
  let phone := lookup (js "phone") props in
  let message := lookup (js "message") props in
  on_end body w =
  match or_else (no_text name) (or_else (no_text email) (no_text message)) with
  | Throw _ => (Normal (Json 500 server_error), w)
  | Normal true => (Normal (Json 400 required_fields), w)
  | Normal false =>
      match RegExp_test emailRegex email with
      | Throw _ => (Normal (Json 500 server_error), w)
      | Normal false => (Normal (Json 400 invalid_email), w)
      | Normal true =>
          match call_trim name, cbind (call_trim email) call_toLowerCase,
                cbind (opt_trim phone) (fun t => Normal (js_or t JSNull)),
                call_trim message with
          | Normal a, Normal b, Normal c, Normal d =>
              match saveContact a b c d w with
              | (Normal response, w') => (Normal (Json 200 response), w')
              | (Throw _, w') => (Normal (Json 500 server_error), w')
              end
          | _, _, _, _ => (Normal (Json 500 server_error), w)
          end
      end
  end.
Proof.
  intros Hws Hparse name email phone message.
  unfold on_end, try_catch, bind, lift, ret, parse.
  rewrite truthy_trim, Hws, Hparse. cbn [negb get].
  fold name email phone message.
  destruct (or_else (no_text name) (or_else (no_text email) (no_text message)))
    as [[|]|]; try reflexivity.
  destruct (RegExp_test emailRegex email) as [[|]|]; try reflexivity. cbn [negb].
  destruct (call_trim name) as [a|]; try reflexivity.
  destruct (cbind (call_trim email) call_toLowerCase) as [b|]; try reflexivity.
  destruct (cbind (opt_trim phone) (fun t => Normal (js_or t JSNull))) as [c|];
    try reflexivity.
  destruct (call_trim message) as [d|]; try reflexivity.
  destruct (saveContact a b c d w) as [[response|e] w']; reflexivity.
Qed.

(** The required-fields check on three fields of which the first without
    text is absent or blank. *)
Lemma required_check_fails (props : list (jsstring * JSValue)) :
  first_without_text (fun v => absent v || blank_string v) (JSObject props) = true ->
  or_else (no_text (lookup (js "name") props))
    (or_else (no_text (lookup (js "email") props))
       (no_text (lookup (js "message") props))) = Normal true.
Proof.
  unfold first_without_text, field.
  set (name := lookup (js "name") props).
  set (email := lookup (js "email") props).
  set (message := lookup (js "message") props).
  assert (A : forall v, absent v || blank_string v = true -> no_text v = Normal true).
  { intros v H. apply orb_true_iff in H as [H|H];
      [now apply no_text_absent|now apply no_text_blank]. }
  intros H. apply orb_true_iff in H as [H|H]; [apply orb_true_iff in H as [H|H]|].
  - now rewrite (A _ H).
  - apply andb_true_iff in H as [Hn H].
    now rewrite (no_text_text _ Hn), (A _ H).
  - apply andb_true_iff in H as [H Hm]. apply andb_true_iff in H as [Hn He].
    now rewrite (no_text_text _ Hn), (no_text_text _ He), (A _ Hm).
Qed.

(** The same check when the first field without text is of another kind. *)
Lemma required_check_throws (props : list (jsstring * JSValue)) :
  first_without_text other_kind (JSObject props) = true ->
  or_else (no_text (lookup (js "name") props))
    (or_else (no_text (lookup (js "email") props))
       (no_text (lookup (js "message") props))) = Throw TypeError.
Proof.
  unfold first_without_text, field.
  set (name := lookup (js "name") props).
  set (email := lookup (js "email") props).
  set (message := lookup (js "message") props).
  intros H. apply orb_true_iff in H as [H|H]; [apply orb_true_iff in H as [H|H]|].
  - now rewrite (no_text_other _ H).
  - apply andb_true_iff in H as [Hn H].
    now rewrite (no_text_text _ Hn), (no_text_other _ H).
  - apply andb_true_iff in H as [H Hm]. apply andb_true_iff in H as [Hn He].
    now rewrite (no_text_text _ Hn), (no_text_text _ He), (no_text_other _ Hm).
Qed.

(** And when all three have text. *)
Lemma required_check_passes (props : list (jsstring * JSValue)) :
  text (lookup (js "name") props) = true ->
  text (lookup (js "email") props) = true ->
  text (lookup (js "message") props) = true ->
  or_else (no_text (lookup (js "name") props))
    (or_else (no_text (lookup (js "email") props))
       (no_text (lookup (js "message") props))) = Normal false.
Proof.
  intros Hn He Hm.
  now rewrite (no_text_text _ Hn), (no_text_text _ He), (no_text_text _ Hm).
Qed.

Lemma well_formed_email_text (v : JSValue) :
  well_formed_email v = true -> text v = true.
Proof.
  destruct v; try discriminate. simpl. intros H.
  apply emailRegex_text in H as [-> _]. reflexivity.
Qed.

Lemma required_fields_reply (body : jsstring) (props : list (jsstring * JSValue)) (w : World DB) :
  whitespace_only body = false ->
  JSON_parse body = Some (JSObject props) ->
  first_without_text (fun v => absent v || blank_string v) (JSObject props) = true ->
  on_end body w = (Normal (Json 400 required_fields), w).
Proof.
  intros Hws Hp H. rewrite (@on_end_object body props w Hws Hp).
  now rewrite (required_check_fails props H).
Qed.

Lemma type_error_reply (body : jsstring) (props : list (jsstring * JSValue)) (w : World DB) :
  whitespace_only body = false ->
  JSON_parse body = Some (JSObject props) ->
  first_without_text other_kind (JSObject props) = true ->
  on_end body w = (Normal (Json 500 server_error), w).
Proof.
  intros Hws Hp H. rewrite (@on_end_object body props w Hws Hp).
  now rewrite (required_check_throws props H).
Qed.

(** The handler never hands anything but a string to [test]. *)
Lemma test_reached_on_strings (props : list (jsstring * JSValue)) :
  or_else (no_text (lookup (js "name") props))
    (or_else (no_text (lookup (js "email") props))
       (no_text (lookup (js "message") props))) = Normal false ->
  exists s, lookup (js "email") props = JSString s.
Proof.
  destruct (lookup (js "name") props) as [| | | |n| |];
    try discriminate; try (intros H; exfalso; revert H; simpl; congruence).
  unfold or_else at 1, no_text at 1, opt_trim, call_trim, cbind.
  destruct (negb (truthy (JSString (trim n)))); [discriminate|].
  destruct (lookup (js "email") props) as [| | | |e| |];
    try discriminate; eauto.
Qed.

(** ** The repository *)

Lemma js_or_phone (v : JSValue) : js_or (phone_or_null v) JSNull = phone_or_null v.
Proof.
  destruct v; try reflexivity. unfold phone_or_null, js_or.
  destruct (truthy (JSString (trim s))) eqn:T.
  - cbv beta iota. now rewrite T.
  - reflexivity.
Qed.

Lemma phone_argument (v : JSValue) :
  optional_string v = true ->
  cbind (opt_trim v) (fun t => Normal (js_or t JSNull)) = Normal (phone_or_null v).
Proof. destruct v; try discriminate; reflexivity. Qed.

Lemma phone_argument_throws (v : JSValue) :
  other_kind v = true ->
  cbind (opt_trim v) (fun t => Normal (js_or t JSNull)) = Throw TypeError.
Proof. destruct v; try discriminate; reflexivity. Qed.

(** The insert went through and its first row has an [id]. *)
Lemma saveContact_saved (name email phone message id : JSValue)
  (rows : list JSValue) (w : World DB) (db' : DB) :
  let q := InsertContact name email (js_or phone JSNull) message in
  run_query q (store w) = (Normal rows, db') ->
  get (first rows) (js "id") = Normal id ->
  saveContact name email phone message w =
  (Normal (saved id), {| store := db'; sent := sent w ++ [q] |}).
Proof.
  intros q Hq Hid. unfold saveContact, try_catch, bind, sql, lift, ret.
  fold q. now rewrite Hq, Hid.
Qed.

(** The insert was rejected for a duplicate under a constraint with
    [email] in its name. *)
Lemma saveContact_email_used (name email phone message : JSValue)
  (c : jsstring) (w : World DB) (db' : DB) :
  let q := InsertContact name email (js_or phone JSNull) message in
  run_query q (store w) = (Throw (DriverError (Some (js "23505")) (Some c)), db') ->
  includes c (js "email") = true ->
  saveContact name email phone message w =
  (Normal email_used, {| store := db'; sent := sent w ++ [q] |}).
Proof.
  intros q Hq Hc. unfold saveContact, try_catch, bind, sql, lift, ret.
  fold q. rewrite Hq. cbn [error_code error_constraint strict_eq_string opt_includes].
  now rewrite str_eqb_refl, Hc.
Qed.

Lemma saveContact_returns (name email phone message : JSValue) (w : World DB) :
  exists r w',
    saveContact name email phone message w = (Normal r, w') /\
    ((exists id, r = saved id) \/ is_error_result r).
Proof.
  unfold saveContact, try_catch, bind, sql, lift, ret, is_error_result.
  destruct (run_query _ (store w)) as [[rows|e] db'].
  - destruct (get (first rows) (js "id")) as [id|e]; [eauto 6|].
    destruct (strict_eq_string (error_code e) (js "23505")); [|eauto 7].
    destruct (opt_includes (error_constraint e) (js "email")); [eauto 7|].
    destruct (opt_includes (error_constraint e) (js "phone")); eauto 7.
  - destruct (strict_eq_string (error_code e) (js "23505")); [|eauto 7].
    destruct (opt_includes (error_constraint e) (js "email")); [eauto 7|].
    destruct (opt_includes (error_constraint e) (js "phone")); eauto 7.
Qed.

(** A submission that passes both checks and whose phone number, if any, is
    a string is handed to [saveContact], trimmed and lower-cased. *)
Lemma validated_reply (body : jsstring) (props : list (jsstring * JSValue)) (w : World DB) :
  whitespace_only body = false ->
  JSON_parse body = Some (JSObject props) ->
  let data := JSObject props in
  text (field data "name") = true ->
  well_formed_email (field data "email") = true ->
  text (field data "message") = true ->
  optional_string (field data "phone") = true ->
  on_end body w =
  match saveContact (trimmed (field data "name"))
                    (normalised_email (field data "email"))
                    (phone_or_null (field data "phone"))
                    (trimmed (field data "message")) w with
  | (Normal response, w') => (Normal (Json 200 response), w')
  | (Throw _, w') => (Normal (Json 500 server_error), w')
  end.
Proof.
  intros Hws Hp data Hn He Hm Hph. unfold data, field in *.
  rewrite (@on_end_object body props w Hws Hp).
  rewrite (required_check_passes props Hn (well_formed_email_text _ He) Hm).
  rewrite (phone_argument _ Hph).
  destruct (lookup (js "name") props) as [| | | |n| |]; try discriminate.
  destruct (lookup (js "email") props) as [| | | |e| |]; try discriminate.
  destruct (lookup (js "message") props) as [| | | |m| |]; try discriminate.
  simpl in He. cbn [RegExp_test call_trim cbind call_toLowerCase trimmed normalised_email].
  now rewrite He.
Qed.

(** A phone number that is not a string stops the handler after both
    checks, before the store is reached. *)
Lemma non_string_phone_fails
  (body : jsstring) (props : list (jsstring * JSValue)) (w : World DB) :
  whitespace_only body = false ->
  JSON_parse body = Some (JSObject props) ->
  text (field (JSObject props) "name") = true ->
  well_formed_email (field (JSObject props) "email") = true ->
  text (field (JSObject props) "message") = true ->
  other_kind (field (JSObject props) "phone") = true ->
  on_end body w = (Normal (Json 500 server_error), w).
Proof.
  intros Hws Hp Hn He Hm Hph. unfold field in *.
  rewrite (@on_end_object body props w Hws Hp).
  rewrite (required_check_passes props Hn (well_formed_email_text _ He) Hm).
  rewrite (phone_argument_throws _ Hph).
  destruct (lookup (js "name") props) as [| | | |n| |]; try discriminate.
  destruct (lookup (js "email") props) as [| | | |e| |]; try discriminate.
  simpl in He. cbn [RegExp_test call_trim cbind call_toLowerCase].
  now rewrite He.
Qed.

(** The address of a valid submission is stored as its lower-casing: there
    is nothing to trim. *)
Lemma normalised_well_formed (e : jsstring) :
  matches emailRegex e = true ->
  normalised_email (JSString e) = JSString (toLowerCase e).
Proof.
  intros H. cbn [normalised_email].
  now destruct (emailRegex_text e H) as [_ ->].
Qed.

(** ** The claims about the handler *)

(** C1, as amended.  A POST to /submit-contact whose body parses to an
    object in which name and message are strings with text, email is a
    string that matches the pattern as sent (so it has no white space
    around it), and phone is absent or a string, sends one insert carrying
    the trimmed name and message, the trimmed and lower-cased email and the
    phone number or null; when the store accepts the insert and returns a
    row with an id, the reply is 200 with status "success" and that id. *)
Theorem valid_submission_saved
  (req : Request) (props : list (jsstring * JSValue)) (w : World DB)
  (rows : list JSValue) (id : JSValue) (db' : DB) :
  submits req = true ->
  payload req (JSObject props) ->
  text (field (JSObject props) "name") = true ->
  well_formed_email (field (JSObject props) "email") = true ->
  text (field (JSObject props) "message") = true ->
  optional_string (field (JSObject props) "phone") = true ->
  run_query (insert_of (JSObject props)) (store w) = (Normal rows, db') ->
  get (first rows) (js "id") = Normal id ->
  requestHandler req w =
  (Normal (Json 200 (saved id)),
   {| store := db'; sent := sent w ++ [insert_of (JSObject props)] |}).
Proof.
  intros Hs [Hws Hp] Hn He Hm Hph Hq Hid.
  rewrite (submits_on_end req Hs).
  rewrite (@validated_reply _ props w Hws Hp Hn He Hm Hph).
  unfold insert_of in *.
  rewrite <- (js_or_phone (field (JSObject props) "phone")) in Hq.
  now rewrite (saveContact_saved _ _ _ _ w Hq Hid), js_or_phone.
Qed.

(** C2, as amended.  When the first of name, email and message (in that
    order) that is not a string with text is absent, null or a blank
    string, the reply is 400 with the required-fields message and nothing
    is sent to the store. *)
Theorem missing_field_rejected
  (req : Request) (props : list (jsstring * JSValue)) (w : World DB) :
  submits req = true ->
  payload req (JSObject props) ->
  first_without_text (fun v => absent v || blank_string v) (JSObject props) = true ->
  requestHandler req w = (Normal (Json 400 required_fields), w).
Proof.
  intros Hs [Hws Hp] H. rewrite (submits_on_end req Hs).
  now apply required_fields_reply with (props := props).
Qed.

(** C3.  When name, email and message are strings with text and the email
    has no at sign, or no dot after the at sign, or white space in it, the
    reply is 400 with the invalid-email message and nothing is sent to the
    store. *)
Theorem ill_formed_email_rejected
  (req : Request) (props : list (jsstring * JSValue)) (e : jsstring) (w : World DB) :
  submits req = true ->
  payload req (JSObject props) ->
  text (field (JSObject props) "name") = true ->
  field (JSObject props) "email" = JSString e ->
  text (JSString e) = true ->
  text (field (JSObject props) "message") = true ->
  ill_formed e ->
  requestHandler req w = (Normal (Json 400 invalid_email), w).
Proof.
  intros Hs [Hws Hp] Hn Ee He Hm Hill. rewrite (submits_on_end req Hs).
  rewrite (@on_end_object _ props w Hws Hp).
  unfold field in *. rewrite <- Ee in He.
  rewrite (required_check_passes props Hn He Hm), Ee.
  cbn [RegExp_test]. now rewrite (emailRegex_rejects Hill).
Qed.

(** C4.  Whatever its arguments and whatever the store does with the
    insert, saveContact returns an object whose status is "success" or
    "error"; it does not throw. *)
Theorem saveContact_never_throws (name email phone message : JSValue) (w : World DB) :
  exists r w',
    saveContact name email phone message w = (Normal r, w') /\
    (field r "status" = JSString (js "success") \/
     field r "status" = JSString (js "error")).
Proof.
  destruct (saveContact_returns name email phone message w) as (r & w' & E & Hr).
  exists r, w'. split; [exact E|].
  destruct Hr as [[id ->]|[->|[->| ->]]]; [left|right|right|right]; reflexivity.
Qed.

(** C5.  When a submission passes both checks and the insert is rejected
    with code 23505 under a constraint whose name contains "email", the
    reply is 200 and its body is the error object with the message that the
    address has already been used. *)
Theorem duplicate_email_reported
  (req : Request) (props : list (jsstring * JSValue)) (w : World DB)
  (c : jsstring) (db' : DB) :
  submits req = true ->
  payload req (JSObject props) ->
  text (field (JSObject props) "name") = true ->
  well_formed_email (field (JSObject props) "email") = true ->
  text (field (JSObject props) "message") = true ->
  optional_string (field (JSObject props) "phone") = true ->
  run_query (insert_of (JSObject props)) (store w) =
    (Throw (DriverError (Some (js "23505")) (Some c)), db') ->
  includes c (js "email") = true ->
  requestHandler req w =
  (Normal (Json 200
     (result_object "error"
        "This email address has already been used. Please use a different email.")),
   {| store := db'; sent := sent w ++ [insert_of (JSObject props)] |}).
Proof.
  intros Hs [Hws Hp] Hn He Hm Hph Hq Hc.
  rewrite (submits_on_end req Hs).
  rewrite (@validated_reply _ props w Hws Hp Hn He Hm Hph).
  unfold insert_of in *.
  rewrite <- (js_or_phone (field (JSObject props) "phone")) in Hq.
  now rewrite (saveContact_email_used _ _ _ _ w Hq Hc), js_or_phone.
Qed.

(** C6.  A body that is empty or white space only is answered 400 with
    "No data received. Please try again."; a body that is not blank and
    that JSON.parse rejects is answered 500 with the server-error message.
    Neither reaches the store. *)
Theorem blank_or_unreadable_body (req : Request) (w : World DB) :
  submits req = true ->
  (whitespace_only (request_body req) = true ->
   requestHandler req w =
   (Normal (Json 400 (result_object "error" "No data received. Please try again.")), w))
  /\
  (whitespace_only (request_body req) = false ->
   JSON_parse (request_body req) = None ->
   requestHandler req w =
   (Normal (Json 500 (result_object "error" "Server error. Please try again later.")), w)).
Proof.
  intros Hs. rewrite (submits_on_end req Hs).
  unfold on_end, try_catch, bind, lift, ret, parse. rewrite truthy_trim.
  split.
  - intros ->. reflexivity.
  - intros -> ->. reflexivity.
Qed.

(** C9, as amended.  When the first of name, email and message (in that
    order) that is not a string with text is a boolean, a number, an array
    or an object, the call of trim on it throws and the reply is 500 with
    the server-error message. *)
Theorem non_string_field_fails
  (req : Request) (props : list (jsstring * JSValue)) (w : World DB) :
  submits req = true ->
  payload req (JSObject props) ->
  first_without_text other_kind (JSObject props) = true ->
  requestHandler req w = (Normal (Json 500 server_error), w).
Proof.
  intros Hs [Hws Hp] H. rewrite (submits_on_end req Hs).
  now apply type_error_reply with (props := props).
Qed.

(** C10, as amended.  When the first of name, email and message that is not
    a string with text is absent, null or a blank string, and the email is
    not a well-formed address, the reply is the 400 with the
    required-fields message and not the one with the invalid-email
    message. *)
Theorem required_check_comes_first
  (req : Request) (props : list (jsstring * JSValue)) (w : World DB) :
  submits req = true ->
  payload req (JSObject props) ->
  first_without_text (fun v => absent v || blank_string v) (JSObject props) = true ->
  well_formed_email (field (JSObject props) "email") = false ->
  requestHandler req w = (Normal (Json 400 required_fields), w) /\
  fst (requestHandler req w) <> Normal (Json 400 invalid_email).
Proof.
  intros Hs [Hws Hp] H _. rewrite (submits_on_end req Hs).
  rewrite (@required_fields_reply _ props w Hws Hp H).
  split; [reflexivity|]. simpl. discriminate.
Qed.

End Handler.

(* ================================================================== *)
(** * Server start-up *)

Lemma digits_value_snoc (s : jsstring) (v : Z) (d : codeunit) :
  digits_value s = Some v ->
  Reference.is_digit d = true ->
  digits_value (s ++ [d]) = Some (10 * v + Z.of_N (d - 0x30))%Z.
Proof.
  unfold digits_value. destruct s as [|c s]; [discriminate|].
  destruct (forallb Reference.is_digit (c :: s)) eqn:F; [|discriminate].
  intros E Hd. injection E as <-.
  cbn [app]. change (c :: s ++ [d]) with ((c :: s) ++ [d]).
  rewrite forallb_app, F, fold_left_app.
  cbn [forallb fold_left andb]. rewrite Hd. cbn [andb]. f_equal.
  change (0 * 10 + Z.of_N (c - 48))%Z with (Z.of_N (c - 48)). lia.
Qed.

Lemma digits_value_nonneg (s : jsstring) (v : Z) :
  digits_value s = Some v -> (0 <= v)%Z.
Proof.
  unfold digits_value. destruct s as [|c s]; [discriminate|].
  destruct (forallb Reference.is_digit (c :: s)); [|discriminate].
  intros E. injection E as <-.
  assert (G : forall (l : jsstring) (acc : Z), (0 <= acc)%Z ->
            (0 <= fold_left (fun acc c => acc * 10 + Z.of_N (c - 0x30))%Z l acc)%Z).
  { induction l as [|d l IH]; intros acc Hacc; cbn [fold_left]; [assumption|].
    apply IH. lia. }
  apply G. lia.
Qed.

(** A string of decimal digits that reads as a port is one [server.listen]
    does not refuse. *)
Lemma digits_in_range (s : jsstring) (v : Z) :
  digits_value s = Some v -> (v <= 65535)%Z -> out_of_range (PortString s) = false.
Proof.
  intros H B. unfold out_of_range.
  change (decimal s) with (digits_value s). rewrite H. now apply Z.ltb_ge.
Qed.

(** X21.  With a port taken from the environment that leaves room for it,
    the call that answers EADDRINUSE is made on the string with a 1
    appended: ten times the port plus one, which has to be a port. *)
Lemma retry_on_environment_port (c : codeunit) (s : jsstring) (v : Z) (rest : list BindResult) :
  digits_value (c :: s) = Some v ->
  (10 * v + 1 <= 65535)%Z ->
  listen (PORT (Some (c :: s))) (PORT (Some (c :: s)))
    (BindError (js "EADDRINUSE") :: Bound :: rest)
  = ([PortString (c :: s); PortString ((c :: s) ++ js "1")],
     Listening (PortString ((c :: s) ++ js "1")))
  /\ port_number (PortString ((c :: s) ++ js "1")) = Some (10 * v + 1)%Z.
Proof.
  intros H B.
  pose proof (@digits_value_nonneg _ _ H) as P.
  assert (H1 : digits_value ((c :: s) ++ js "1") = Some (10 * v + 1)%Z).
  { change (js "1") with [0x31%N].
    now rewrite (@digits_value_snoc (c :: s) v 0x31%N H). }
  split; [|exact H1].
  unfold PORT. cbn [listen plus_one].
  rewrite (@digits_in_range (c :: s) v H) by lia.
  replace (str_eqb (js "EADDRINUSE") (js "EADDRINUSE")) with true by reflexivity.
  rewrite (@digits_in_range _ _ H1 B). reflexivity.
Qed.

(** With no port in the environment the retry is on 3001. *)
Lemma retry_on_default_port (rest : list BindResult) :
  listen (PORT None) (PORT None) (BindError (js "EADDRINUSE") :: Bound :: rest)
  = ([PortNumber 3000; PortNumber 3001], Listening (PortNumber 3001)).
Proof. reflexivity. Qed.

(** The listener answers every EADDRINUSE, that of its own call too. *)
Lemma retry_repeats :
  listen (PORT None) (PORT None)
    [BindError (js "EADDRINUSE"); BindError (js "EADDRINUSE"); Bound]
  = ([PortNumber 3000; PortNumber 3001; PortNumber 3001], Listening (PortNumber 3001)).
Proof. reflexivity. Qed.

(** C7, on the port 4000 set in the environment: after EADDRINUSE the
    server listens on the string "40001", port 40001, and not on 4001. *)
Theorem retry_port_4000 :
  fst (startServer (Some (js "4000")) [BindError (js "EADDRINUSE"); Bound]
         (connected Postgres.empty))
  = Normal ([PortString (js "4000"); PortString (js "40001")],
            Listening (PortString (js "40001")))
  /\ port_number (PortString (js "40001")) = Some 40001%Z
  /\ port_number (PortString (js "40001")) <> Some 4001%Z.
Proof.
  split; [vm_compute; reflexivity|].
  split; [vm_compute; reflexivity|].
  vm_compute. discriminate.
Qed.

(* ================================================================== *)
(** * The schema initialiser *)

(** Nothing escapes [createTable], whatever the store answers. *)
Lemma createTable_returns {DB : Type} {D : Database DB} (w : World DB) :
  exists w', createTable w = (Normal tt, w').
Proof.
  unfold createTable, try_catch at 1.
  match goal with |- context [match ?body w with _ => _ end] =>
    destruct (body w) as [[[]|e] w'] end; eexists; reflexivity.
Qed.


Section Steps.

Context {DB : Type} {D : Database DB}.

Lemma bind_normal {A C : Type} (p : Prog DB A) (k : A -> Prog DB C)
  (w w' : World DB) (a : A) :
  p w = (Normal a, w') -> bind p k w = k a w'.
Proof. unfold bind. now intros ->. Qed.

Lemma sql_eq (q : Query) (w : World DB) :
  sql q w = (fst (run_query q (store w)),
             {| store := snd (run_query q (store w)); sent := sent w ++ [q] |}).
Proof. unfold sql. now destruct (run_query q (store w)). Qed.

(** An index statement inside its own try: the failure stays there. *)
Lemma guarded_statement (q : Query) (w : World DB) :
  try_catch (bind (sql q) (fun _ => ret tt)) (fun _ => ret tt) w
  = (Normal tt, {| store := snd (run_query q (store w)); sent := sent w ++ [q] |}).
Proof.
  unfold try_catch, bind, ret. rewrite sql_eq.
  now destruct (fst (run_query q (store w))).
Qed.

(** [checkTableStructure] returns, and sends one statement. *)
Lemma checkTableStructure_eq (w : World DB) :
  checkTableStructure w
  = (Normal (match fst (run_query SelectColumns (store w)) with
             | Normal rows => rows
             | Throw _ => []
             end),
     {| store := snd (run_query SelectColumns (store w));
        sent := sent w ++ [SelectColumns] |}).
Proof.
  unfold checkTableStructure, try_catch, bind, ret. rewrite sql_eq.
  now destruct (fst (run_query SelectColumns (store w))).
Qed.

End Steps.

Arguments bind_normal {DB A C p} k {w w' a} _.

Section Trace.

Context {DB : Type} {D : Database DB}.

(** The statements of [createTable], for every answer of the store. *)
Lemma createTable_trace (w : World DB) :
  snd (createTable w) =
  let w1 := world_after SelectColumns w in
  let rows := match fst (run_query SelectColumns (store w)) with
              | Normal answer => answer
              | Throw _ => []
              end in
  match some is_created_at rows with
  | Throw _ => w1
  | Normal hasCreatedAt =>
      let q := if negb hasCreatedAt && (0 <? List.length rows)%nat
               then AlterAddCreatedAt else CreateTable in
      match fst (run_query q (store w1)) with
      | Throw _ => world_after q w1
      | Normal _ =>
          world_after SelectColumns
            (world_after CreateIndexCreatedAt
               (world_after CreateIndexEmail (world_after q w1)))
      end
  end.
Proof.
  cbv zeta.
  set (w1 := world_after SelectColumns w).
  set (rows := match fst (run_query SelectColumns (store w)) with
               | Normal answer => answer
               | Throw _ => []
               end).
  unfold createTable, try_catch at 1.
  rewrite (bind_normal _ (checkTableStructure_eq w)).
  fold rows. fold (world_after SelectColumns w). fold w1.
  unfold bind at 1, lift.
  destruct (some is_created_at rows) as [b|e]; [|reflexivity].
  assert (E : (if negb b && (0 <? List.length rows)%nat
               then sql AlterAddCreatedAt else sql CreateTable) w1
              = sql (if negb b && (0 <? List.length rows)%nat
                     then AlterAddCreatedAt else CreateTable) w1)
    by now destruct (negb b && (0 <? List.length rows)%nat).
  unfold bind at 1. rewrite E, sql_eq.
  set (q := if negb b && (0 <? List.length rows)%nat
            then AlterAddCreatedAt else CreateTable).
  fold (world_after q w1).
  destruct (fst (run_query q (store w1))) as [r|e]; [|reflexivity].
  rewrite (bind_normal _ (guarded_statement CreateIndexEmail _)).
  fold (world_after CreateIndexEmail (world_after q w1)).
  rewrite (bind_normal _ (guarded_statement CreateIndexCreatedAt _)).
  fold (world_after CreateIndexCreatedAt (world_after CreateIndexEmail (world_after q w1))).
  rewrite (bind_normal _ (checkTableStructure_eq _)).
  unfold bind, lift, ret.
  match goal with |- context [map_c ?f ?l] => destruct (map_c f l) end; reflexivity.
Qed.

End Trace.

(** ** The statements on the reference store *)

















(** ** Columns and their names *)








(** Why the other schemas matter: the columns query selects by table name
    alone.  A table called contacts in another schema, without created_at,
    makes the run alter a table that is not there, and none is made. *)
Lemma table_elsewhere_stops_creation :
  let s := {| Postgres.table := None;
              Postgres.elsewhere := [Postgres.column "id" "integer" "NO";
                                     Postgres.column "name" "text" "YES"];
              Postgres.indexes := []; Postgres.uniques := []; Postgres.rows := [];
              Postgres.next_id := 1; Postgres.clock := Postgres.clock Postgres.empty |} in
  absent_or_usable s = true /\
  sent (snd (createTable (connected s))) = [SelectColumns; AlterAddCreatedAt] /\
  initialised s = s.
Proof. repeat split. Qed.

(** And one with created_at keeps the run from adding that column to a
    table that lacks it. *)
Lemma column_elsewhere_hides_missing_one :
  let five := [Postgres.column "id" "integer" "NO";
               Postgres.column "name" "character varying" "NO";
               Postgres.column "email" "character varying" "NO";
               Postgres.column "phone" "character varying" "YES";
               Postgres.column "message" "text" "NO"] in
  let s := {| Postgres.table := Some five;
              Postgres.elsewhere := Postgres.created_columns;
              Postgres.indexes := []; Postgres.uniques := []; Postgres.rows := [];
              Postgres.next_id := 1; Postgres.clock := Postgres.clock Postgres.empty |} in
  absent_or_usable s = true /\
  Postgres.table (initialised s) = Some five /\
  copies (js "created_at") (initialised s) = 0%nat /\
  Postgres.has_index (js "idx_contacts_created_at") (initialised s) = false.
Proof. repeat split. Qed.

(* ================================================================== *)
(** * The program on concrete requests *)

(** The example of the specification: the first submission on a fresh
    table gets the id 1 and is stored with its address in lower case. *)
Lemma valid_submission_saved_witness :
  exists w',
    requestHandler (post (json_text "{'name':'Jo','email':'JO@Example.com','message':'hi'}"))
      ready
    = (Normal (Json 200 (saved (JSNumber 1 0))), w')
    /\ Postgres.rows (store w')
       = [[(js "id", JSNumber 1 0); (js "name", JSString (js "Jo"));
           (js "email", JSString (js "jo@example.com"));
           (js "phone", JSNull); (js "message", JSString (js "hi"))]].
Proof.
  eexists. split.
  - eapply (@valid_submission_saved reference_builtins Postgres.Store postgres
              (post (json_text "{'name':'Jo','email':'JO@Example.com','message':'hi'}"))
              [(js "name", JSString (js "Jo"));
               (js "email", JSString (js "JO@Example.com"));
               (js "message", JSString (js "hi"))]
              ready [JSObject [(js "id", JSNumber 1 0)]] (JSNumber 1 0)).
    + reflexivity.
    + split; reflexivity.
    + reflexivity.
    + reflexivity.
    + reflexivity.
    + reflexivity.
    + reflexivity.
    + reflexivity.
  - reflexivity.
Defined.

(** C1 fails as stated three ways: an address with a space in front of it
    is turned down although its trim matches the pattern; a phone number
    sent as a number ends in the catch clause; and a store that rejects the
    insert makes the reply an error. *)
Lemma padded_email_not_saved :
  (matches emailRegex (trim (js " jo@example.com")) = true /\
   fst (requestHandler
          (post (json_text "{'name':'Jo','email':' jo@example.com','message':'hi'}")) ready)
   = Normal (Json 400 invalid_email)) /\
  fst (requestHandler
         (post (json_text "{'name':'Jo','email':'jo@example.com','message':'hi','phone':5551234}"))
         ready)
  = Normal (Json 500 server_error) /\
  fst (requestHandler
         (post (json_text "{'name':'Jo','email':'jo@example.com','message':'hi'}"))
         (connected Postgres.empty))
  = Normal (Json 200 not_saved).
Proof. repeat split; vm_compute; reflexivity. Qed.

Lemma missing_field_rejected_witness :
  requestHandler (post (json_text "{}")) ready = (Normal (Json 400 required_fields), ready).
Proof.
  apply (@missing_field_rejected reference_builtins Postgres.Store postgres
           (post (json_text "{}")) [] ready).
  - reflexivity.
  - split; reflexivity.
  - reflexivity.
Defined.

(** C2 fails as stated on a payload with no email whose name is a number:
    the reply is the 500 of the catch clause. *)
Lemma missing_email_after_number :
  Reference.JSON_parse (json_text "{'name':5}") = Some (JSObject [(js "name", JSNumber 5 0)]) /\
  field (JSObject [(js "name", JSNumber 5 0)]) "email" = JSUndefined /\
  fst (requestHandler (post (json_text "{'name':5}")) ready)
  = Normal (Json 500 server_error) /\
  fst (requestHandler (post (json_text "{'name':5}")) ready)
  <> Normal (Json 400 required_fields).
Proof.
  repeat split; try (vm_compute; reflexivity).
  vm_compute. discriminate.
Qed.

Lemma ill_formed_email_rejected_witness :
  requestHandler (post (json_text "{'name':'Jo','email':'jo.example.com','message':'hi'}")) ready
  = (Normal (Json 400 invalid_email), ready).
Proof.
  apply (@ill_formed_email_rejected reference_builtins Postgres.Store postgres
           (post (json_text "{'name':'Jo','email':'jo.example.com','message':'hi'}"))
           [(js "name", JSString (js "Jo"));
            (js "email", JSString (js "jo.example.com"));
            (js "message", JSString (js "hi"))]
           (js "jo.example.com") ready).
  - reflexivity.
  - split; reflexivity.
  - reflexivity.
  - reflexivity.
  - reflexivity.
  - reflexivity.
  - left. cbn. intuition discriminate.
Defined.

Lemma duplicate_email_reported_witness :
  fst (requestHandler
         (post (json_text "{'name':'Jo','email':'jo@example.com','message':'again'}"))
         (connected with_unique_email))
  = Normal (Json 200 email_used).
Proof.
  erewrite (@duplicate_email_reported reference_builtins Postgres.Store postgres
              (post (json_text "{'name':'Jo','email':'jo@example.com','message':'again'}"))
              [(js "name", JSString (js "Jo"));
               (js "email", JSString (js "jo@example.com"));
               (js "message", JSString (js "again"))]
              (connected with_unique_email) (js "contacts_email_key")).
  - reflexivity.
  - reflexivity.
  - split; reflexivity.
  - reflexivity.
  - reflexivity.
  - reflexivity.
  - reflexivity.
  - reflexivity.
  - reflexivity.
Defined.

Lemma blank_or_unreadable_body_witness :
  requestHandler (post (js "  ")) ready = (Normal (Json 400 no_data), ready) /\
  requestHandler (post (js "{bad")) ready = (Normal (Json 500 server_error), ready).
Proof.
  split.
  - apply (proj1 (@blank_or_unreadable_body reference_builtins Postgres.Store postgres
                    (post (js "  ")) ready eq_refl)).
    reflexivity.
  - apply (proj2 (@blank_or_unreadable_body reference_builtins Postgres.Store postgres
                    (post (js "{bad")) ready eq_refl)); reflexivity.
Defined.



Lemma non_string_field_fails_witness :
  requestHandler (post (json_text "{'name':'Jo','email':5,'message':'hi'}")) ready
  = (Normal (Json 500 server_error), ready).
Proof.
  apply (@non_string_field_fails reference_builtins Postgres.Store postgres
           (post (json_text "{'name':'Jo','email':5,'message':'hi'}"))
           [(js "name", JSString (js "Jo")); (js "email", JSNumber 5 0);
            (js "message", JSString (js "hi"))] ready).
  - reflexivity.
  - split; reflexivity.
  - reflexivity.
Defined.

(** C9 fails as stated on a payload whose email is a number and whose name
    is missing: the required-fields check answers before trim is called on
    the number. *)
Lemma number_after_missing_name :
  Reference.JSON_parse (json_text "{'email':5}") = Some (JSObject [(js "email", JSNumber 5 0)]) /\
  truthy (field (JSObject [(js "email", JSNumber 5 0)]) "email") = true /\
  fst (requestHandler (post (json_text "{'email':5}")) ready)
  = Normal (Json 400 required_fields) /\
  fst (requestHandler (post (json_text "{'email':5}")) ready)
  <> Normal (Json 500 server_error).
Proof.
  repeat split; try (vm_compute; reflexivity).
  vm_compute. discriminate.
Qed.

Lemma required_check_comes_first_witness :
  requestHandler (post (json_text "{'name':'Jo','email':'nobody','message':' '}")) ready
  = (Normal (Json 400 required_fields), ready).
Proof.
  apply (@required_check_comes_first reference_builtins Postgres.Store postgres
           (post (json_text "{'name':'Jo','email':'nobody','message':' '}"))
           [(js "name", JSString (js "Jo")); (js "email", JSString (js "nobody"));
            (js "message", JSString (js " "))] ready).
  - reflexivity.
  - split; reflexivity.
  - reflexivity.
  - reflexivity.
Defined.

(** C10 fails as stated on a payload with a blank message and an address
    without an at sign whose name is a number. *)
Lemma blank_message_after_number :
  Reference.JSON_parse (json_text "{'name':5,'email':'x','message':''}")
  = Some (JSObject [(js "name", JSNumber 5 0); (js "email", JSString (js "x"));
                    (js "message", JSString [])]) /\
  matches emailRegex (js "x") = false /\
  fst (requestHandler (post (json_text "{'name':5,'email':'x','message':''}")) ready)
  = Normal (Json 500 server_error) /\
  fst (requestHandler (post (json_text "{'name':5,'email':'x','message':''}")) ready)
  <> Normal (Json 400 required_fields).
Proof.
  repeat split; try (vm_compute; reflexivity).
  vm_compute. discriminate.
Qed.

(** The last example of the specification. *)
Lemma unknown_route :
  requestHandler {| method := js "GET"; url := js "/does-not-exist"; chunks := [] |} ready
  = (Normal (Json 404 (result_object "error" "Page not found")), ready).
Proof. reflexivity. Qed.

(** On the reference store an accepted insert returns one row, whose id is
    the next value of the sequence, and appends the row it was given. *)
Lemma insert_returns_next_id (name email phone message : JSValue)
  (s s' : Postgres.Store) (rows : list JSValue) :
  Postgres.insert name email phone message s = (Normal rows, s') ->
  rows = [JSObject [(js "id", JSNumber (Postgres.next_id s) 0)]] /\
  Postgres.next_id s' = (Postgres.next_id s + 1)%Z /\
  Postgres.rows s'
  = Postgres.rows s ++
    [[(js "id", JSNumber (Postgres.next_id s) 0); (js "name", name);
      (js "email", email); (js "phone", phone); (js "message", message)]].
Proof.
  unfold Postgres.insert.
  destruct (Postgres.table s) as [cols|]; [|discriminate].
  destruct (forallb _ _); [|discriminate].
  destruct (Postgres.violated _ _ _); [discriminate|].
  intros E. injection E as <- <-. repeat split.
Qed.

(* ================================================================== *)
(** * Further properties of the handler *)

Lemma trimStart_snoc (s : jsstring) (c : codeunit) :
  is_whitespace c = false -> trimStart (s ++ [c]) = trimStart s ++ [c].
Proof.
  intros H. induction s as [|x s IH]; cbn [app trimStart].
  - now rewrite H.
  - now destruct (is_whitespace x).
Qed.

Lemma trimStart_idem (s : jsstring) : trimStart (trimStart s) = trimStart s.
Proof.
  pose proof (trimStart_head s) as H.
  destruct (trimStart s) as [|c t]; [reflexivity|].
  destruct H as [H _]. cbn [trimStart]. now rewrite H.
Qed.

(** A string with text trims to a tidy string. *)
Lemma trim_tidy (s : jsstring) : whitespace_only s = false -> tidy (trim s).
Proof.
  intros W. unfold tidy.
  assert (N : trim s <> []).
  { intros E. apply trim_nil in E. congruence. }
  split; [exact N|].
  unfold trim, trimEnd in *.
  pose proof (trimStart_head s) as Hd.
  destruct (trimStart s) as [|c t]; [now elim N|].
  destruct Hd as [Hc _].
  cbn [rev]. rewrite (@trimStart_snoc (rev t) c Hc).
  rewrite rev_app_distr. cbn [rev app trimStart]. rewrite Hc.
  cbn [rev]. rewrite rev_involutive, (@trimStart_snoc _ c Hc), trimStart_idem.
  now rewrite rev_app_distr.
Qed.

Section Outcomes.

Context {B : Builtins} {DB : Type} {D : Database DB}.

Lemma saveContact_world (name email phone message : JSValue) (w : World DB) :
  snd (saveContact name email phone message w)
  = world_after (InsertContact name email (js_or phone JSNull) message) w.
Proof.
  unfold saveContact, try_catch, bind, lift, ret, world_after. rewrite sql_eq.
  destruct (fst (run_query _ (store w))) as [rows|e]; cbn [snd].
  - destruct (get (first rows) (js "id")); [reflexivity|].
    destruct (strict_eq_string _ _); [|reflexivity].
    destruct (opt_includes _ _); [reflexivity|].
    now destruct (opt_includes _ _).
  - destruct (strict_eq_string _ _); [|reflexivity].
    destruct (opt_includes _ _); [reflexivity|].
    now destruct (opt_includes _ _).
Qed.

(** Every way the listener can end: one of four replies that leave the
    world alone, or the call of [saveContact] on checked arguments. *)
Lemma on_end_outcome (body : jsstring) (w : World DB) :
  on_end body w = (Normal (Json 400 no_data), w) \/
  on_end body w = (Normal (Json 400 required_fields), w) \/
  on_end body w = (Normal (Json 400 invalid_email), w) \/
  on_end body w = (Normal (Json 500 server_error), w) \/
  exists (n e m : jsstring) (p : JSValue),
    whitespace_only n = false /\
    matches emailRegex e = true /\
    whitespace_only m = false /\
    (p = JSNull \/ exists s, whitespace_only s = false /\ p = JSString (trim s)) /\
    on_end body w =
    match saveContact (JSString (trim n)) (JSString (toLowerCase (trim e))) p
                      (JSString (trim m)) w with
    | (Normal response, w') => (Normal (Json 200 response), w')
    | (Throw _, w') => (Normal (Json 500 server_error), w')
    end.
Proof.
  unfold on_end, try_catch, bind, lift, ret, parse. rewrite truthy_trim.
  destruct (whitespace_only body); cbn [negb]; [now left|].
  destruct (JSON_parse body) as [data|]; [|now do 3 right; left].
  destruct (get data (js "name")) as [name|]; [|now do 3 right; left].
  destruct (get data (js "email")) as [email|]; [|now do 3 right; left].
  destruct (get data (js "phone")) as [phone|]; [|now do 3 right; left].
  destruct (get data (js "message")) as [message|]; [|now do 3 right; left].
  unfold or_else, no_text, opt_trim, call_trim, cbind.
  destruct name as [| | | |n| |];
    try (now right; left); try (now do 3 right; left).
  rewrite truthy_trim. destruct (whitespace_only n) eqn:Wn; cbn [negb];
    [now right; left|].
  destruct email as [| | | |e| |];
    try (now right; left); try (now do 3 right; left).
  rewrite truthy_trim. destruct (whitespace_only e) eqn:We; cbn [negb];
    [now right; left|].
  destruct message as [| | | |m| |];
    try (now right; left); try (now do 3 right; left).
  rewrite truthy_trim. destruct (whitespace_only m) eqn:Wm; cbn [negb];
    [now right; left|].
  cbn [RegExp_test]. destruct (matches emailRegex e) eqn:Me; cbn [negb];
    [|now do 2 right; left].
  cbn [call_toLowerCase].
  destruct phone as [| | | |s| |]; try (now do 3 right; left).
  - do 4 right. exists n, e, m, JSNull. repeat split; auto.
    now destruct (saveContact _ _ _ _ w) as [[r|x] w'].
  - do 4 right. exists n, e, m, JSNull. repeat split; auto.
    now destruct (saveContact _ _ _ _ w) as [[r|x] w'].
  - do 4 right. unfold js_or. rewrite truthy_trim.
    destruct (whitespace_only s) eqn:Ws; cbn [negb].
    + exists n, e, m, JSNull. repeat split; auto.
      now destruct (saveContact _ _ _ _ w) as [[r|x] w'].
    + exists n, e, m, (JSString (trim s)). repeat split; eauto.
      now destruct (saveContact _ _ _ _ w) as [[r|x] w'].
Qed.

End Outcomes.

Section Replies.

Context {B : Builtins} {DB : Type} {D : Database DB}.

Lemma other_routes (req : Request) :
  submits req = false ->
  exists r,
    (r = Preflight \/ (exists kind path, r = Static kind path) \/
     r = Json 404 page_not_found) /\
    forall w : World DB, requestHandler req w = (Normal r, w).
Proof.
  unfold submits, requestHandler. intros ->. cbv zeta.
  repeat match goal with
         | |- context [if ?c then _ else _] => destruct c
         end;
    (eexists; split; [|intros w; reflexivity]); eauto 6.
Qed.

Lemma js_or_tidy (s : jsstring) :
  whitespace_only s = false -> js_or (JSString (trim s)) JSNull = JSString (trim s).
Proof. intros W. unfold js_or. now rewrite truthy_trim, W. Qed.

(** Every way a request can end: a quiet reply in an unchanged world, or
    the reply of [saveContact] on a validated insert. *)
Lemma requestHandler_outcome (req : Request) (w : World DB) :
  (exists r, quiet_reply r /\ requestHandler req w = (Normal r, w)) \/
  (exists q response,
     validated_insert q /\
     ((exists id, response = saved id) \/ is_error_result response) /\
     (field response "status" = JSString (js "success") ->
      exists rows, fst (run_query q (store w)) = Normal rows) /\
     requestHandler req w = (Normal (Json 200 response), world_after q w)).
Proof.
  destruct (submits req) eqn:S.
  - rewrite (submits_on_end req S).
    destruct (on_end_outcome (request_body req) w)
      as [E|[E|[E|[E|(n & e & m & p & Wn & Me & Wm & Hp & E)]]]];
      try (left; eexists; split; [|exact E]; unfold quiet_reply; tauto).
    right.
    assert (P : js_or p JSNull = p).
    { destruct Hp as [->|(s & Ws & ->)]; [reflexivity|now apply js_or_tidy]. }
    exists (InsertContact (JSString (trim n)) (JSString (toLowerCase (trim e))) p
              (JSString (trim m))).
    unfold saveContact, try_catch, bind, lift, ret in E. rewrite sql_eq in E.
    rewrite P in E. unfold world_after.
    assert (V : validated_insert
              (InsertContact (JSString (trim n)) (JSString (toLowerCase (trim e))) p
                 (JSString (trim m)))).
    { cbn [validated_insert]. repeat split; try (now apply trim_tidy).
      - exists e. split; [assumption|]. now destruct (emailRegex_text e Me) as [_ ->].
      - destruct Hp as [->|(s & Ws & ->)]; [now left|right].
        exists (trim s). split; [reflexivity|now apply trim_tidy]. }
    destruct (fst (run_query _ (store w))) as [rows|x] eqn:R.
    + destruct (get (first rows) (js "id")) as [id|x].
      * exists (saved id). rewrite E.
        split; [exact V|]. split; [eauto|]. split; [eauto|reflexivity].
      * repeat match type of E with
               | context [if ?c then _ else _] => destruct c
               end;
          eexists; rewrite E;
          (refine (conj V (conj _ (conj _ eq_refl)));
           [right; unfold is_error_result; tauto
           |intros H; vm_compute in H; discriminate H]).
    + repeat match type of E with
             | context [if ?c then _ else _] => destruct c
             end;
        eexists; rewrite E;
        (refine (conj V (conj _ (conj _ eq_refl)));
         [right; unfold is_error_result; tauto
         |intros H; vm_compute in H; discriminate H]).
  - destruct (other_routes req S) as (r & Hr & E). left. exists r.
    split; [|apply E]. unfold quiet_reply. tauto.
Qed.

End Replies.

Section Handler_properties.

Context {B : Builtins} {DB : Type} {D : Database DB}.

(** X1.  The handler answers every request: whatever the method, the URL,
    the body, the parser and the store, it ends with a reply and no
    exception leaves it. *)
Theorem handler_always_replies (req : Request) (w : World DB) :
  exists r w', requestHandler req w = (Normal r, w').
Proof.
  destruct (requestHandler_outcome req w) as [(r & _ & E)|(q & r & _ & _ & _ & E)];
    eauto.
Qed.

(** X2.  A request that is not a POST to exactly /submit-contact is answered
    by the preflight reply, a static file or the 404 object, and leaves the
    store and the list of statements as they were. *)
Theorem other_requests_leave_store (req : Request) (w : World DB) :
  submits req = false ->
  exists r,
    (r = Preflight \/ (exists kind path, r = Static kind path) \/
     r = Json 404 page_not_found) /\
    requestHandler req w = (Normal r, w).
Proof.
  intros S. destruct (other_routes req S) as (r & Hr & E). eauto.
Qed.

(** X3.  A request sends at most one statement, and that statement is an
    insert: the world after the handler is the world before it, or the
    world after one insert. *)
Theorem at_most_one_statement (req : Request) (w : World DB) :
  snd (requestHandler req w) = w \/
  exists name email phone message,
    snd (requestHandler req w) = world_after (InsertContact name email phone message) w.
Proof.
  destruct (requestHandler_outcome req w) as [(r & _ & E)|(q & r & V & _ & _ & E)];
    rewrite E; cbn [snd]; [now left|right].
  destruct q; try contradiction. eauto.
Qed.

(** X4.  Whatever the handler adds to the statements sent is a validated
    insert: name and message are strings that are not empty and have no
    white space at either end, the email is the lower-casing of a string
    that matches the pattern, and the phone is null or such a string. *)
Theorem inserted_fields_validated (req : Request) (w : World DB) (q : Query) :
  In q (sent (snd (requestHandler req w))) ->
  In q (sent w) \/ validated_insert q.
Proof.
  destruct (requestHandler_outcome req w) as [(r & _ & E)|(q' & r & V & _ & _ & E)];
    rewrite E; cbn [snd world_after sent]; [now left|].
  intros I. apply in_app_or in I as [I|[<-|[]]]; auto.
Qed.

(** X5.  A JSON reply has HTTP status 200, 400, 404 or 500 and a status
    field that is "success" or "error"; "success" comes only with 200 and
    only after an insert that the store accepted. *)
Theorem reply_codes (req : Request) (w w' : World DB) (code : Z) (payload : JSValue) :
  requestHandler req w = (Normal (Json code payload), w') ->
  (code = 200 \/ code = 400 \/ code = 404 \/ code = 500)%Z /\
  (field payload "status" = JSString (js "success") \/
   field payload "status" = JSString (js "error")) /\
  (field payload "status" = JSString (js "success") ->
   code = 200%Z /\
   exists q rows, w' = world_after q w /\ fst (run_query q (store w)) = Normal rows).
Proof.
  intros H.
  destruct (requestHandler_outcome req w) as [(r & Q & E)|(q & r & V & R & A & E)];
    rewrite E in H.
  - injection H as Hr Hw. subst r w'.
    destruct Q as [Q|[(k & p & Q)|[Q|[Q|[Q|[Q|Q]]]]]]; try discriminate Q;
      injection Q as -> ->;
      (split; [tauto|]); (split; [now right|]);
      intros X; vm_compute in X; discriminate X.
  - injection H as Hc Hr Hw. subst code payload w'. split; [tauto|]. split.
    + destruct R as [[id ->]|[->|[->| ->]]]; [left|right|right|right]; reflexivity.
    + intros X. split; [reflexivity|]. destruct (A X) as [rows Hr]. eauto.
Qed.

(** X6.  A body that parses to null is answered 500, because destructuring
    null throws; a body that parses to a boolean, a number, a string or an
    array is read as an object without fields and answered 400 with the
    required-fields message.  Neither reaches the store. *)
Theorem unkeyed_payload (req : Request) (data : JSValue) (w : World DB) :
  submits req = true ->
  payload req data ->
  (data = JSNull -> requestHandler req w = (Normal (Json 500 server_error), w)) /\
  (unkeyed data = true ->
   requestHandler req w = (Normal (Json 400 required_fields), w)).
Proof.
  intros S [Hws Hp]. rewrite (submits_on_end req S).
  unfold on_end, try_catch, bind, lift, ret, parse.
  rewrite truthy_trim, Hws, Hp. cbn [negb]. split.
  - intros ->. reflexivity.
  - destruct data; try discriminate; reflexivity.
Qed.

(** X7.  Once both checks pass and the phone is absent, null or a string,
    the HTTP status is 200 whatever the store does with the insert: the
    body is the success object or one of the three error objects, and the
    insert is the one statement sent. *)
Theorem validated_always_200
  (req : Request) (props : list (jsstring * JSValue)) (w : World DB) :
  submits req = true ->
  payload req (JSObject props) ->
  text (field (JSObject props) "name") = true ->
  well_formed_email (field (JSObject props) "email") = true ->
  text (field (JSObject props) "message") = true ->
  optional_string (field (JSObject props) "phone") = true ->
  exists response,
    ((exists id, response = saved id) \/ is_error_result response) /\
    requestHandler req w
    = (Normal (Json 200 response), world_after (insert_of (JSObject props)) w).
Proof.
  intros Hs [Hws Hp] Hn He Hm Hph.
  rewrite (submits_on_end req Hs).
  rewrite (@validated_reply _ _ _ _ props w Hws Hp Hn He Hm Hph).
  pose proof (saveContact_world (trimmed (field (JSObject props) "name"))
                (normalised_email (field (JSObject props) "email"))
                (phone_or_null (field (JSObject props) "phone"))
                (trimmed (field (JSObject props) "message")) w) as W.
  rewrite js_or_phone in W. fold (insert_of (JSObject props)) in W.
  destruct (saveContact_returns (trimmed (field (JSObject props) "name"))
              (normalised_email (field (JSObject props) "email"))
              (phone_or_null (field (JSObject props) "phone"))
              (trimmed (field (JSObject props) "message")) w)
    as (r & w' & E & Hr).
  rewrite E in *. cbn [snd] in W. subst w'. eauto.
Qed.

(** X8.  A phone that is a boolean, a number, an array or an object is not
    caught by either check: the submission passes both, the call of trim
    on the phone throws, and the reply is 500 with nothing sent to the
    store. *)
Theorem non_string_phone_is_server_error
  (req : Request) (props : list (jsstring * JSValue)) (w : World DB) :
  submits req = true ->
  payload req (JSObject props) ->
  text (field (JSObject props) "name") = true ->
  well_formed_email (field (JSObject props) "email") = true ->
  text (field (JSObject props) "message") = true ->
  other_kind (field (JSObject props) "phone") = true ->
  requestHandler req w = (Normal (Json 500 server_error), w).
Proof.
  intros Hs [Hws Hp] Hn He Hm Hph. rewrite (submits_on_end req Hs).
  now apply non_string_phone_fails with (props := props).
Qed.

End Handler_properties.

(* ================================================================== *)
(** * Further properties of the repository and the start-up *)

Section Repository_properties.

Context {DB : Type} {D : Database DB}.

(** X9.  saveContact sends exactly one statement, whatever comes of it: the
    insert of its arguments, with a phone that is falsy (undefined, null,
    the empty string, false, a number that is zero as a double) replaced
    by null. *)
Theorem saveContact_sends_one_insert (name email phone message : JSValue) (w : World DB) :
  snd (saveContact name email phone message w)
  = world_after
      (InsertContact name email (if truthy phone then phone else JSNull) message) w.
Proof. apply saveContact_world. Qed.

(** X10.  A rejection with code 23505 under a constraint whose name
    contains "phone" and not "email" is reported with the message that the
    phone number has already been used. *)
Theorem duplicate_phone_reported
  (name email phone message : JSValue) (c : jsstring) (w : World DB) (db' : DB) :
  run_query (InsertContact name email (js_or phone JSNull) message) (store w)
  = (Throw (DriverError (Some (js "23505")) (Some c)), db') ->
  includes c (js "email") = false ->
  includes c (js "phone") = true ->
  fst (saveContact name email phone message w)
  = Normal (result_object "error"
      "This phone number has already been used. Please use a different number.").
Proof.
  intros Hq He Hp. unfold saveContact, try_catch, bind, sql, lift, ret.
  rewrite Hq. cbn [error_code error_constraint strict_eq_string opt_includes].
  now rewrite str_eqb_refl, He, Hp.
Qed.

(** X11.  Every other rejection gets the one generic message: a code other
    than 23505 (or none), or a 23505 whose constraint is missing or names
    neither email nor phone.  Nothing of the error reaches the result. *)
Theorem other_rejections_are_generic
  (name email phone message : JSValue) (e : Exn) (w : World DB) (db' : DB) :
  run_query (InsertContact name email (js_or phone JSNull) message) (store w)
  = (Throw e, db') ->
  strict_eq_string (error_code e) (js "23505") = false \/
  (opt_includes (error_constraint e) (js "email") = false /\
   opt_includes (error_constraint e) (js "phone") = false) ->
  fst (saveContact name email phone message w)
  = Normal (result_object "error"
      "Something went wrong while saving your contact. Please try again later.").
Proof.
  intros Hq H. unfold saveContact, try_catch, bind, sql, lift, ret. rewrite Hq.
  destruct H as [->|[-> ->]]; [reflexivity|].
  now destruct (strict_eq_string _ _).
Qed.

(** X12.  An insert that the store accepts but answers with no row (or with
    a first row that is null) is reported as a failure: reading the id
    throws inside the try, and the result is the generic error although the
    statement went through. *)
Theorem accepted_without_row_is_reported_failed
  (name email phone message : JSValue) (rows : list JSValue) (w : World DB) (db' : DB) :
  run_query (InsertContact name email (js_or phone JSNull) message) (store w)
  = (Normal rows, db') ->
  absent (first rows) = true ->
  saveContact name email phone message w
  = (Normal not_saved,
     {| store := db';
        sent := sent w ++ [InsertContact name email (js_or phone JSNull) message] |}).
Proof.
  intros Hq Hr. unfold saveContact, try_catch, bind, sql, lift, ret. rewrite Hq.
  destruct (first rows); try discriminate; reflexivity.
Qed.

(** X13.  testConnection sends its one probe and returns, whether the probe
    is rejected, resolves to no row, or resolves to a row. *)
Theorem testConnection_returns (w : World DB) :
  testConnection w = (Normal tt, world_after SelectNow w).
Proof.
  unfold testConnection, try_catch, bind, lift, ret, world_after. rewrite sql_eq.
  destruct (fst (run_query SelectNow (store w))) as [rows|e]; [|reflexivity].
  now destruct (get (first rows) (js "current_time")).
Qed.

(** X14.  checkTableStructure sends the columns query and returns its rows,
    or the empty array when the query is rejected; it does not throw. *)
Theorem checkTableStructure_returns (w : World DB) :
  exists rows,
    checkTableStructure w = (Normal rows, world_after SelectColumns w) /\
    match fst (run_query SelectColumns (store w)) with
    | Normal answer => rows = answer
    | Throw _ => rows = []
    end.
Proof.
  rewrite checkTableStructure_eq. unfold world_after.
  eexists. split; [reflexivity|].
  now destruct (fst (run_query SelectColumns (store w))).
Qed.

End Repository_properties.

Section Initialiser_properties.

Context {DB : Type} {D : Database DB}.

(** The test for [created_at] fails on a row only when the row is null or
    undefined. *)
Lemma some_throws_absent (rows : list JSValue) (e : Exn) :
  some is_created_at rows = Throw e -> exists r, In r rows /\ absent r = true.
Proof.
  induction rows as [|r rows IH]; [discriminate|].
  cbn [some]. unfold is_created_at at 1.
  destruct r; cbn [get cbind];
    try (intros _; eexists; split; [now left|reflexivity]);
    (destruct (strict_eq_string _ _); [discriminate|];
     intros H; destruct (IH H) as (r & I & A); exists r; split; [now right|exact A]).
Qed.

(** X15.  createTable sends the columns query, then one schema statement,
    then the two index statements and the columns query again, in that
    order and nothing else.  The schema statement is the additive change
    when the first query returned rows and none names created_at, and the
    creation otherwise.  When the schema statement is rejected the run
    stops there without an index statement; when it is accepted both index
    statements and the last query are sent whatever the store answers to
    them.  The run stops after the first query only when a row it returned
    is null or undefined. *)
Theorem createTable_statements (w : World DB) :
  let rows := match fst (run_query SelectColumns (store w)) with
              | Normal answer => answer
              | Throw _ => []
              end in
  let w1 := world_after SelectColumns w in
  (exists r, In r rows /\ absent r = true) /\
  sent (snd (createTable w)) = sent w ++ [SelectColumns]
  \/
  exists hasCreatedAt,
    some is_created_at rows = Normal hasCreatedAt /\
    let q := if negb hasCreatedAt && (0 <? List.length rows)%nat
             then AlterAddCreatedAt else CreateTable in
    ((exists e, fst (run_query q (store w1)) = Throw e) /\
     sent (snd (createTable w)) = sent w ++ [SelectColumns; q]
     \/
     (exists answer, fst (run_query q (store w1)) = Normal answer) /\
     sent (snd (createTable w))
     = sent w ++ [SelectColumns; q; CreateIndexEmail; CreateIndexCreatedAt; SelectColumns]).
Proof.
  rewrite createTable_trace. cbv zeta.
  destruct (some is_created_at _) as [b|e] eqn:S.
  - right. exists b. split; [reflexivity|].
    set (q := if negb b && _ then AlterAddCreatedAt else CreateTable).
    destruct (fst (run_query q (store (world_after SelectColumns w)))) as [r|e] eqn:R.
    + right. split; [eauto|]. cbn [world_after sent]. now rewrite <- !app_assoc.
    + left. split; [eauto|]. cbn [world_after sent]. now rewrite <- !app_assoc.
  - left. split; [exact (some_throws_absent _ S)|reflexivity].
Qed.

(** X16.  When the columns query is rejected or returns no row, the schema
    statement is CREATE TABLE IF NOT EXISTS: the table is never altered on
    the strength of a failed or empty look at it. *)
Theorem no_columns_means_create (w : World DB) :
  (exists e, fst (run_query SelectColumns (store w)) = Throw e) \/
  fst (run_query SelectColumns (store w)) = Normal [] ->
  exists tail,
    sent (snd (createTable w)) = sent w ++ [SelectColumns; CreateTable] ++ tail.
Proof.
  intros H. rewrite createTable_trace. cbv zeta.
  assert (E : match fst (run_query SelectColumns (store w)) with
              | Normal answer => answer
              | Throw _ => []
              end = []).
  { destruct H as [[e ->]| ->]; reflexivity. }
  rewrite E. cbn [some negb List.length Nat.ltb Nat.leb andb].
  destruct (fst (run_query CreateTable _)); cbn [world_after sent];
    rewrite <- !app_assoc; eexists; cbn [app]; reflexivity.
Qed.

(** X17.  The additive change is sent only after a columns query that
    returned at least one row, none of them the column created_at. *)
Theorem alter_only_without_created_at (w : World DB) :
  In AlterAddCreatedAt (sent (snd (createTable w))) ->
  In AlterAddCreatedAt (sent w) \/
  exists rows,
    fst (run_query SelectColumns (store w)) = Normal rows /\
    rows <> [] /\
    some is_created_at rows = Normal false.
Proof.
  rewrite createTable_trace. cbv zeta.
  destruct (fst (run_query SelectColumns (store w))) as [rows|e] eqn:R.
  - destruct (some is_created_at rows) as [b|e] eqn:S.
    + destruct b; cbn [negb andb].
      * destruct (fst (run_query CreateTable _)); cbn [world_after sent];
          rewrite <- !app_assoc; intros I; apply in_app_or in I as [I|I]; auto;
          cbn in I; intuition discriminate.
      * destruct rows as [|r rows]; cbn [List.length Nat.ltb Nat.leb].
        -- destruct (fst (run_query CreateTable _)); cbn [world_after sent];
             rewrite <- !app_assoc; intros I; apply in_app_or in I as [I|I]; auto;
             cbn in I; intuition discriminate.
        -- intros _. right. exists (r :: rows). repeat split; [discriminate|exact S].
    + cbn [world_after sent]. intros I. apply in_app_or in I as [I|I]; auto.
      cbn in I. intuition discriminate.
  - cbn [some negb List.length Nat.ltb Nat.leb andb].
    destruct (fst (run_query CreateTable _)); cbn [world_after sent];
      rewrite <- !app_assoc; intros I; apply in_app_or in I as [I|I]; auto;
      cbn in I; intuition discriminate.
Qed.

(** X19.  startServer gets to its call of server.listen whatever the
    store answers: the probe and the initialiser never throw, so what the
    start-up comes to is what the calls of listen on that port come to, and
    the store is left as createTable leaves it after the probe. *)
Theorem startServer_always_listens
  (env_PORT : option jsstring) (binds : list BindResult) (w : World DB) :
  startServer env_PORT binds w
  = (Normal (listen (PORT env_PORT) (PORT env_PORT) binds),
     snd (createTable (world_after SelectNow w))).
Proof.
  unfold startServer, try_catch.
  rewrite (bind_normal _ (testConnection_returns w)).
  destruct (createTable_returns (world_after SelectNow w)) as [w' E].
  rewrite (bind_normal _ E), E. reflexivity.
Qed.

End Initialiser_properties.

(** X20.  However the binds end, the first call of listen is on the port
    and every later one on the port plus one, at most one call per bind
    result and one more; the server ends listening or still binding on the
    last port it called, or exits with status 1. *)
Theorem retries_stay_on_one_port (P arg : Port) (binds : list BindResult) :
  exists k,
    (k <= List.length binds)%nat /\
    fst (listen P arg binds) = arg :: repeat (plus_one P) k /\
    let final := match k with O => arg | S _ => plus_one P end in
    snd (listen P arg binds) = Listening final \/
    snd (listen P arg binds) = Binding final \/
    snd (listen P arg binds) = Exited 1.
Proof.
  revert arg. induction binds as [|b binds IH]; intros arg.
  - exists 0%nat. cbn [listen]. destruct (out_of_range arg); cbn; auto.
  - cbn [listen]. destruct (out_of_range arg);
      [exists 0%nat; cbn; split; [lia|auto]|].
    destruct b as [|code|].
    + exists 0%nat. cbn. split; [lia|auto].
    + destruct (str_eqb code (js "EADDRINUSE")).
      * destruct (IH (plus_one P)) as (k & Hk & Hc & Hs).
        destruct (listen P (plus_one P) binds) as [calls status].
        cbn [fst snd] in *. exists (S k). subst calls.
        split; [cbn; lia|]. split; [reflexivity|].
        now destruct k.
      * exists 0%nat. cbn. split; [lia|auto].
    + exists 0%nat. cbn. split; [lia|auto].
Qed.

Lemma plain_forallb (l : jsstring) :
  existsb is_whitespace l = false -> ~ In 0x40%N l -> forallb plain l = true.
Proof.
  induction l as [|c l IH]; [reflexivity|]. cbn [existsb forallb In].
  intros W A. apply orb_false_iff in W as [Wc Wl].
  rewrite IH; [|assumption|tauto]. unfold plain. rewrite Wc. cbn [negb andb].
  destruct (N.eqb_spec c 0x40%N) as [->|_]; [tauto|reflexivity].
Qed.

(** X22.  The e-mail pattern accepts exactly the strings without white
    space that have one at sign, something before it, and after it a dot
    with something on both sides. *)
Theorem email_pattern_language (s : jsstring) :
  matches emailRegex s = true <->
  existsb is_whitespace s = false /\
  exists local domain,
    s = local ++ 0x40%N :: domain /\
    local <> [] /\ ~ In 0x40%N local /\ ~ In 0x40%N domain /\
    exists b c, domain = b ++ 0x2E%N :: c /\ b <> [] /\ c <> [].
Proof.
  split.
  - intros M. split; [now apply emailRegex_no_whitespace|].
    apply emailRegex_shape in M as (a & b & c & -> & Ha & Hb & Hc).
    exists a, (b ++ 0x2E%N :: c).
    assert (N : forall l, plain_run l = true -> l <> [])
      by (intros [|x l] H; [discriminate H|discriminate]).
    pose proof (N _ Ha). pose proof (N _ Hb). pose proof (N _ Hc).
    apply plain_run_forallb, plain_no_at in Ha, Hb, Hc.
    repeat split; auto.
    + intros I. apply in_app_or in I as [I|[I|I]]; [tauto|discriminate|tauto].
    + now exists b, c.
  - intros (W & a & d & -> & Na & Aa & Ad & b & c & -> & Nb & Nc).
    rewrite existsb_app in W. apply orb_false_iff in W as [Wa W].
    cbn [existsb] in W. apply orb_false_iff in W as [_ W].
    rewrite existsb_app in W. apply orb_false_iff in W as [Wb W].
    cbn [existsb] in W. apply orb_false_iff in W as [_ Wc].
    apply emailRegex_shape. exists a, b, c. split; [reflexivity|].
    assert (R : forall l, l <> [] -> forallb plain l = true -> plain_run l = true)
      by (intros [|x l] Hn Hl; [now elim Hn|exact Hl]).
    repeat split; apply R; auto; apply plain_forallb; auto.
    + intros I. apply Ad, in_or_app. now left.
    + intros I. apply Ad, in_or_app. right. now right.
Qed.

(** ** The further properties on concrete requests *)

Lemma other_requests_leave_store_witness :
  exists r,
    (r = Preflight \/ (exists kind path, r = Static kind path) \/
     r = Json 404 page_not_found) /\
    requestHandler {| method := js "GET"; url := js "/css/site.css"; chunks := [] |} ready
    = (Normal r, ready).
Proof.
  apply (@other_requests_leave_store reference_builtins Postgres.Store postgres
           {| method := js "GET"; url := js "/css/site.css"; chunks := [] |} ready).
  reflexivity.
Defined.

Lemma inserted_fields_validated_witness :
  In (InsertContact (JSString (js "Jo")) (JSString (js "jo@example.com")) JSNull
        (JSString (js "hi"))) (sent ready)
  \/ validated_insert
       (InsertContact (JSString (js "Jo")) (JSString (js "jo@example.com")) JSNull
          (JSString (js "hi"))).
Proof.
  apply (@inserted_fields_validated reference_builtins Postgres.Store postgres
           (post (json_text "{'name':' Jo ','email':'JO@Example.com','message':'hi'}"))
           ready).
  vm_compute. left. reflexivity.
Defined.

Lemma reply_codes_witness :
  (200 = 200 \/ 200 = 400 \/ 200 = 404 \/ 200 = 500)%Z /\
  (field (saved (JSNumber 1 0)) "status" = JSString (js "success") \/
   field (saved (JSNumber 1 0)) "status" = JSString (js "error")) /\
  (field (saved (JSNumber 1 0)) "status" = JSString (js "success") ->
   200%Z = 200%Z /\
   exists q rows,
     snd (requestHandler
            (post (json_text "{'name':'Jo','email':'jo@example.com','message':'hi'}")) ready)
     = world_after q ready /\
     fst (run_query q (store ready)) = Normal rows).
Proof.
  apply (@reply_codes reference_builtins Postgres.Store postgres
           (post (json_text "{'name':'Jo','email':'jo@example.com','message':'hi'}"))
           ready).
  vm_compute. reflexivity.
Defined.

Lemma unkeyed_payload_witness :
  requestHandler (post (js "null")) ready = (Normal (Json 500 server_error), ready) /\
  requestHandler (post (js "[1, 2]")) ready = (Normal (Json 400 required_fields), ready).
Proof.
  split.
  - apply (proj1 (@unkeyed_payload reference_builtins Postgres.Store postgres
                    (post (js "null")) JSNull ready eq_refl (conj eq_refl eq_refl))).
    reflexivity.
  - apply (proj2 (@unkeyed_payload reference_builtins Postgres.Store postgres
                    (post (js "[1, 2]")) (JSArray [JSNumber 1 0; JSNumber 2 0]) ready
                    eq_refl (conj eq_refl eq_refl))).
    reflexivity.
Defined.

Lemma validated_always_200_witness :
  exists response,
    ((exists id, response = saved id) \/ is_error_result response) /\
    requestHandler
      (post (json_text "{'name':'Jo','email':'jo@example.com','message':'hi'}"))
      (connected Postgres.empty)
    = (Normal (Json 200 response),
       world_after
         (InsertContact (JSString (js "Jo")) (JSString (js "jo@example.com")) JSNull
            (JSString (js "hi")))
         (connected Postgres.empty)).
Proof.
  apply (@validated_always_200 reference_builtins Postgres.Store postgres
           (post (json_text "{'name':'Jo','email':'jo@example.com','message':'hi'}"))
           [(js "name", JSString (js "Jo")); (js "email", JSString (js "jo@example.com"));
            (js "message", JSString (js "hi"))]
           (connected Postgres.empty)).
  - reflexivity.
  - split; reflexivity.
  - reflexivity.
  - reflexivity.
  - reflexivity.
  - reflexivity.
Defined.

Lemma non_string_phone_is_server_error_witness :
  requestHandler
    (post (json_text "{'name':'Jo','email':'jo@example.com','message':'hi','phone':5551234}"))
    ready
  = (Normal (Json 500 server_error), ready).
Proof.
  apply (@non_string_phone_is_server_error reference_builtins Postgres.Store postgres
           (post (json_text
              "{'name':'Jo','email':'jo@example.com','message':'hi','phone':5551234}"))
           [(js "name", JSString (js "Jo")); (js "email", JSString (js "jo@example.com"));
            (js "message", JSString (js "hi")); (js "phone", JSNumber 5551234 0)]
           ready).
  - reflexivity.
  - split; reflexivity.
  - reflexivity.
  - reflexivity.
  - reflexivity.
  - reflexivity.
Defined.

Lemma duplicate_phone_reported_witness :
  fst (saveContact (JSString (js "Al")) (JSString (js "al@example.com"))
         (JSString (js "555 1234")) (JSString (js "hello")) (connected with_unique_phone))
  = Normal phone_used.
Proof.
  eapply (@duplicate_phone_reported Postgres.Store postgres
            (JSString (js "Al")) (JSString (js "al@example.com"))
            (JSString (js "555 1234")) (JSString (js "hello"))
            (js "contacts_phone_key") (connected with_unique_phone)).
  - reflexivity.
  - reflexivity.
  - reflexivity.
Defined.

Lemma other_rejections_are_generic_witness :
  fst (saveContact (JSString (js "Al")) (JSString (js "al@example.com")) JSNull
         (JSString (js "hello")) (connected Postgres.empty))
  = Normal not_saved.
Proof.
  eapply (@other_rejections_are_generic Postgres.Store postgres
            (JSString (js "Al")) (JSString (js "al@example.com")) JSNull
            (JSString (js "hello")) (DriverError (Some (js "42P01")) None)
            (connected Postgres.empty)).
  - reflexivity.
  - left. reflexivity.
Defined.

Lemma accepted_without_row_is_reported_failed_witness :
  @saveContact nat silent (JSString (js "Al")) (JSString (js "al@example.com")) JSNull
    (JSString (js "hello")) (connected 0%nat)
  = (Normal not_saved,
     {| store := 1%nat;
        sent := [InsertContact (JSString (js "Al")) (JSString (js "al@example.com")) JSNull
                   (JSString (js "hello"))] |}).
Proof.
  apply (@accepted_without_row_is_reported_failed nat silent
           (JSString (js "Al")) (JSString (js "al@example.com")) JSNull
           (JSString (js "hello")) [] (connected 0%nat) 1%nat).
  - reflexivity.
  - reflexivity.
Defined.

Lemma no_columns_means_create_witness :
  exists tail,
    sent (snd (createTable (connected Postgres.empty)))
    = sent (connected Postgres.empty) ++ [SelectColumns; CreateTable] ++ tail.
Proof.
  apply (@no_columns_means_create Postgres.Store postgres (connected Postgres.empty)).
  right. reflexivity.
Defined.

Lemma alter_only_without_created_at_witness :
  In AlterAddCreatedAt (sent (connected legacy)) \/
  exists rows,
    fst (run_query SelectColumns (store (connected legacy))) = Normal rows /\
    rows <> [] /\
    some is_created_at rows = Normal false.
Proof.
  apply (@alter_only_without_created_at Postgres.Store postgres (connected legacy)).
  vm_compute. right. left. reflexivity.
Defined.

Lemma retry_on_environment_port_witness :
  listen (PORT (Some (js "5000"))) (PORT (Some (js "5000")))
    [BindError (js "EADDRINUSE"); Bound]
  = ([PortString (js "5000"); PortString (js "50001")],
     Listening (PortString (js "50001")))
  /\ port_number (PortString (js "50001")) = Some 50001%Z.
Proof.
  apply (@retry_on_environment_port 0x35%N (js "000") 5000%Z []).
  - reflexivity.
  - lia.
Defined.
